(** * Fixed-layout OSM records and their bulk array lifecycle

    A shallow embedding of [c/osmway.c], [c/osmdata.c] and the record
    layouts of [c_code/valhalla.h] (overture-valhalla-writer).

    Arrays are raw blocks of bytes, as the C code treats them ([memset],
    [memcpy], [fwrite], [fread]); a member of a record is read and written
    through its storage unit at a byte offset, bit-fields through shift and
    mask, in the layout GCC and Clang give the header on a little-endian
    LP64 target (x86-64, AArch64).  An access outside a block, a null
    stream or a null buffer is undefined behaviour, the outcome [Undef]. *)

From Stdlib Require Import String.
From Stdlib Require Import ZArith List Lia Bool.
From coqutil Require Import Byte Word.LittleEndianList.
Import ListNotations.
Local Open Scope Z_scope.

(** ** Outcomes of a call *)

Inductive outcome (A : Type) : Type :=
| Ret (a : A)
| Undef.
Arguments Ret {A} a.
Arguments Undef {A}.

Definition bind {A B : Type} (m : outcome A) (k : A -> outcome B) : outcome B :=
  match m with
  | Ret a => k a
  | Undef => Undef
  end.

Notation "x <- m ;; k" := (bind m (fun x => k))
  (at level 61, m at next level, right associativity).

(** ** Blocks of memory *)

Definition block : Type := list byte.

Definition in_block (b : block) (off n : nat) : bool :=
  (off + n <=? length b)%nat.

Definition peek (b : block) (off n : nat) : list byte :=
  firstn n (skipn off b).

Definition poke (b : block) (off : nat) (bytes : list byte) : block :=
  firstn off b ++ bytes ++ skipn (off + length bytes) b.

Definition load (b : block) (off n : nat) : outcome (list byte) :=
  if in_block b off n then Ret (peek b off n) else Undef.

Definition store (b : block) (off : nat) (bytes : list byte) : outcome block :=
  if in_block b off (length bytes) then Ret (poke b off bytes) else Undef.

(** [memset(b + off, c, n)] *)
Definition memset (b : block) (off : nat) (c : Z) (n : nat) : outcome block :=
  store b off (repeat (byte.of_Z c) n).

(** [memcpy(dst + doff, src + soff, n)] between two objects. *)
Definition memcpy (dst : block) (doff : nat) (src : block) (soff n : nat) : outcome block :=
  bytes <- load src soff n ;;
  store dst doff bytes.

(** ** Members and bit-fields

    [f_off] is the byte offset of the storage unit inside the record,
    [f_unit] its size in bytes, [f_shift] the position of the member's lowest
    bit inside the unit and [f_width] its width in bits. *)

Record member : Type := mkMember
  { f_off : nat; f_unit : nat; f_shift : Z; f_width : Z; f_signed : bool }.

Definition member_ok (l : member) : bool :=
  (0 <=? f_shift l) && (0 <? f_width l)
  && (f_shift l + f_width l <=? 8 * Z.of_nat (f_unit l)).

Definition get_bits (u : Z) (l : member) : Z :=
  Z.land (Z.shiftr u (f_shift l)) (Z.ones (f_width l)).

Definition set_bits (u : Z) (l : member) (v : Z) : Z :=
  Z.lor (Z.ldiff u (Z.shiftl (Z.ones (f_width l)) (f_shift l)))
        (Z.shiftl (Z.land v (Z.ones (f_width l))) (f_shift l)).

(** The value of the member's bits, two's complement for a signed member. *)
Definition interp (l : member) (v : Z) : Z :=
  if f_signed l && (2 ^ (f_width l - 1) <=? v) then v - 2 ^ f_width l else v.

(** What a member holds after [v] is assigned to it. *)
Definition wrap (l : member) (v : Z) : Z := interp l (v mod 2 ^ f_width l).

(** Reading the member [l] of the record at [b + base]. *)
Definition load_member (b : block) (base : nat) (l : member) : outcome Z :=
  u <- load b (base + f_off l) (f_unit l) ;;
  Ret (interp l (get_bits (le_combine u) l)).

(** Assigning [v] to the member [l] of the record at [b + base]: the
    storage unit is read, the member's bits replaced, the unit written back. *)
Definition store_member (b : block) (base : nat) (l : member) (v : Z) : outcome block :=
  u <- load b (base + f_off l) (f_unit l) ;;
  store b (base + f_off l) (le_split (f_unit l) (set_bits (le_combine u) l v)).

(** Two members at two places do not share a bit. *)
Definition apart (o1 : nat) (l1 : member) (o2 : nat) (l2 : member) : bool :=
  (o1 + f_off l1 + f_unit l1 <=? o2 + f_off l2)%nat
  || (o2 + f_off l2 + f_unit l2 <=? o1 + f_off l1)%nat
  || ((o1 + f_off l1 =? o2 + f_off l2)%nat && (f_unit l1 =? f_unit l2)%nat
      && ((f_shift l1 + f_width l1 <=? f_shift l2)
          || (f_shift l2 + f_width l2 <=? f_shift l1))).

(** ** Integer types of the target *)

Definition INT_MAX : Z := 2 ^ 31 - 1.
Definition INT_MIN : Z := - 2 ^ 31.
Definition LONG_MAX : Z := 2 ^ 63 - 1.

(** Conversion to [size_t] / [uint64_t]. *)
Definition size_t (z : Z) : Z := z mod 2 ^ 64.

(** ** Arrays of records

    [s + index] for an array [s] of records of [size] bytes. *)
Definition slot (size : nat) (index : Z) : nat := (Z.to_nat index * size)%nat.

(** ** [struct OSMWay]

    The members in the order of the header: the id at offset 0, the 70
    [uint32_t] indices and the duration from offset 8 to 288, two 32-bit units of
    bit-fields at 292 and 296, two 16-bit units of bit-fields at 300 and 302,
    the node count at 304 and the eight one-byte members from 306 to 313;
    the record is padded to the alignment of its [uint64_t], 320 bytes. *)

Module OSMWay.

Inductive field : Type :=
| osmwayid_ | ref_index_ | ref_lang_index_ | ref_left_index_
| ref_left_lang_index_ | ref_right_index_ | ref_right_lang_index_
| int_ref_index_ | int_ref_lang_index_ | int_ref_left_index_
| int_ref_left_lang_index_ | int_ref_right_index_
| int_ref_right_lang_index_ | name_index_ | name_lang_index_
| name_left_index_ | name_left_lang_index_ | name_right_index_
| name_right_lang_index_ | name_forward_index_ | name_forward_lang_index_
| name_backward_index_ | name_backward_lang_index_ | alt_name_index_
| alt_name_lang_index_ | alt_name_left_index_ | alt_name_left_lang_index_
| alt_name_right_index_ | alt_name_right_lang_index_ | official_name_index_
| official_name_lang_index_ | official_name_left_index_
| official_name_left_lang_index_ | official_name_right_index_
| official_name_right_lang_index_ | tunnel_name_index_
| tunnel_name_lang_index_ | tunnel_name_left_index_
| tunnel_name_left_lang_index_ | tunnel_name_right_index_
| tunnel_name_right_lang_index_ | fwd_turn_lanes_index_
| bwd_turn_lanes_index_ | fwd_jct_base_index_ | bwd_jct_base_index_
| fwd_jct_overlay_index_ | bwd_jct_overlay_index_
| fwd_signboard_base_index_ | bwd_signboard_base_index_
| destination_index_ | destination_lang_index_ | destination_forward_index_
| destination_backward_index_ | destination_forward_lang_index_
| destination_backward_lang_index_ | destination_ref_index_
| destination_ref_lang_index_ | destination_ref_to_index_
| destination_ref_to_lang_index_ | destination_int_ref_index_
| destination_int_ref_to_index_ | destination_street_index_
| destination_street_lang_index_ | destination_street_to_index_
| destination_street_to_lang_index_ | junction_name_index_
| junction_name_lang_index_ | junction_ref_index_
| junction_ref_lang_index_ | level_index_ | level_ref_index_ | duration_
| destination_only_ | no_thru_traffic_ | oneway_ | oneway_reverse_
| roundabout_ | ferry_ | rail_ | surface_ | tunnel_ | toll_ | bridge_
| seasonal_ | drive_on_right_ | bike_network_ | exit_ | tagged_speed_
| forward_tagged_speed_ | backward_tagged_speed_ | tagged_lanes_
| forward_tagged_lanes_ | backward_tagged_lanes_ | truck_route_
| sidewalk_right_ | sidewalk_left_ | sac_scale_ | road_class_ | link_
| use_ | lanes_ | forward_lanes_ | backward_lanes_ | turn_channel_
| wheelchair_ | wheelchair_tag_ | has_user_tags_ | has_pronunciation_tags_
| internal_ | hov_type_ | indoor_ | pedestrian_forward_
| pedestrian_backward_ | auto_forward_ | bus_forward_ | taxi_forward_
| truck_forward_ | motorcycle_forward_ | emergency_forward_ | hov_forward_
| moped_forward_ | auto_backward_ | bus_backward_ | taxi_backward_
| truck_backward_ | motorcycle_backward_ | emergency_backward_
| hov_backward_ | moped_backward_ | cycle_lane_right_ | cycle_lane_left_
| cycle_lane_right_opposite_ | cycle_lane_left_opposite_ | shoulder_right_
| shoulder_left_ | dismount_ | use_sidepath_ | bike_forward_
| bike_backward_ | lit_ | destination_only_hgv_ | spare2_ | nodecount_
| speed_limit_ | speed_ | backward_speed_ | forward_speed_ | truck_speed_
| truck_speed_forward_ | truck_speed_backward_ | layer_.

Definition layout (f : field) : member :=
  match f with
  | osmwayid_ => mkMember 0 8 0 64 false
  | ref_index_ => mkMember 8 4 0 32 false
  | ref_lang_index_ => mkMember 12 4 0 32 false
  | ref_left_index_ => mkMember 16 4 0 32 false
  | ref_left_lang_index_ => mkMember 20 4 0 32 false
  | ref_right_index_ => mkMember 24 4 0 32 false
  | ref_right_lang_index_ => mkMember 28 4 0 32 false
  | int_ref_index_ => mkMember 32 4 0 32 false
  | int_ref_lang_index_ => mkMember 36 4 0 32 false
  | int_ref_left_index_ => mkMember 40 4 0 32 false
  | int_ref_left_lang_index_ => mkMember 44 4 0 32 false
  | int_ref_right_index_ => mkMember 48 4 0 32 false
  | int_ref_right_lang_index_ => mkMember 52 4 0 32 false
  | name_index_ => mkMember 56 4 0 32 false
  | name_lang_index_ => mkMember 60 4 0 32 false
  | name_left_index_ => mkMember 64 4 0 32 false
  | name_left_lang_index_ => mkMember 68 4 0 32 false
  | name_right_index_ => mkMember 72 4 0 32 false
  | name_right_lang_index_ => mkMember 76 4 0 32 false
  | name_forward_index_ => mkMember 80 4 0 32 false
  | name_forward_lang_index_ => mkMember 84 4 0 32 false
  | name_backward_index_ => mkMember 88 4 0 32 false
  | name_backward_lang_index_ => mkMember 92 4 0 32 false
  | alt_name_index_ => mkMember 96 4 0 32 false
  | alt_name_lang_index_ => mkMember 100 4 0 32 false
  | alt_name_left_index_ => mkMember 104 4 0 32 false
  | alt_name_left_lang_index_ => mkMember 108 4 0 32 false
  | alt_name_right_index_ => mkMember 112 4 0 32 false
  | alt_name_right_lang_index_ => mkMember 116 4 0 32 false
  | official_name_index_ => mkMember 120 4 0 32 false
  | official_name_lang_index_ => mkMember 124 4 0 32 false
  | official_name_left_index_ => mkMember 128 4 0 32 false
  | official_name_left_lang_index_ => mkMember 132 4 0 32 false
  | official_name_right_index_ => mkMember 136 4 0 32 false
  | official_name_right_lang_index_ => mkMember 140 4 0 32 false
  | tunnel_name_index_ => mkMember 144 4 0 32 false
  | tunnel_name_lang_index_ => mkMember 148 4 0 32 false
  | tunnel_name_left_index_ => mkMember 152 4 0 32 false
  | tunnel_name_left_lang_index_ => mkMember 156 4 0 32 false
  | tunnel_name_right_index_ => mkMember 160 4 0 32 false
  | tunnel_name_right_lang_index_ => mkMember 164 4 0 32 false
  | fwd_turn_lanes_index_ => mkMember 168 4 0 32 false
  | bwd_turn_lanes_index_ => mkMember 172 4 0 32 false
  | fwd_jct_base_index_ => mkMember 176 4 0 32 false
  | bwd_jct_base_index_ => mkMember 180 4 0 32 false
  | fwd_jct_overlay_index_ => mkMember 184 4 0 32 false
  | bwd_jct_overlay_index_ => mkMember 188 4 0 32 false
  | fwd_signboard_base_index_ => mkMember 192 4 0 32 false
  | bwd_signboard_base_index_ => mkMember 196 4 0 32 false
  | destination_index_ => mkMember 200 4 0 32 false
  | destination_lang_index_ => mkMember 204 4 0 32 false
  | destination_forward_index_ => mkMember 208 4 0 32 false
  | destination_backward_index_ => mkMember 212 4 0 32 false
  | destination_forward_lang_index_ => mkMember 216 4 0 32 false
  | destination_backward_lang_index_ => mkMember 220 4 0 32 false
  | destination_ref_index_ => mkMember 224 4 0 32 false
  | destination_ref_lang_index_ => mkMember 228 4 0 32 false
  | destination_ref_to_index_ => mkMember 232 4 0 32 false
  | destination_ref_to_lang_index_ => mkMember 236 4 0 32 false
  | destination_int_ref_index_ => mkMember 240 4 0 32 false
  | destination_int_ref_to_index_ => mkMember 244 4 0 32 false
  | destination_street_index_ => mkMember 248 4 0 32 false
  | destination_street_lang_index_ => mkMember 252 4 0 32 false
  | destination_street_to_index_ => mkMember 256 4 0 32 false
  | destination_street_to_lang_index_ => mkMember 260 4 0 32 false
  | junction_name_index_ => mkMember 264 4 0 32 false
  | junction_name_lang_index_ => mkMember 268 4 0 32 false
  | junction_ref_index_ => mkMember 272 4 0 32 false
  | junction_ref_lang_index_ => mkMember 276 4 0 32 false
  | level_index_ => mkMember 280 4 0 32 false
  | level_ref_index_ => mkMember 284 4 0 32 false
  | duration_ => mkMember 288 4 0 32 false
  | destination_only_ => mkMember 292 4 0 1 false
  | no_thru_traffic_ => mkMember 292 4 1 1 false
  | oneway_ => mkMember 292 4 2 1 false
  | oneway_reverse_ => mkMember 292 4 3 1 false
  | roundabout_ => mkMember 292 4 4 1 false
  | ferry_ => mkMember 292 4 5 1 false
  | rail_ => mkMember 292 4 6 1 false
  | surface_ => mkMember 292 4 7 3 false
  | tunnel_ => mkMember 292 4 10 1 false
  | toll_ => mkMember 292 4 11 1 false
  | bridge_ => mkMember 292 4 12 1 false
  | seasonal_ => mkMember 292 4 13 1 false
  | drive_on_right_ => mkMember 292 4 14 1 false
  | bike_network_ => mkMember 292 4 15 4 false
  | exit_ => mkMember 292 4 19 1 false
  | tagged_speed_ => mkMember 292 4 20 1 false
  | forward_tagged_speed_ => mkMember 292 4 21 1 false
  | backward_tagged_speed_ => mkMember 292 4 22 1 false
  | tagged_lanes_ => mkMember 292 4 23 1 false
  | forward_tagged_lanes_ => mkMember 292 4 24 1 false
  | backward_tagged_lanes_ => mkMember 292 4 25 1 false
  | truck_route_ => mkMember 292 4 26 1 false
  | sidewalk_right_ => mkMember 292 4 27 1 false
  | sidewalk_left_ => mkMember 292 4 28 1 false
  | sac_scale_ => mkMember 292 4 29 3 false
  | road_class_ => mkMember 296 4 0 3 false
  | link_ => mkMember 296 4 3 1 false
  | use_ => mkMember 296 4 4 6 false
  | lanes_ => mkMember 296 4 10 4 false
  | forward_lanes_ => mkMember 296 4 14 4 false
  | backward_lanes_ => mkMember 296 4 18 4 false
  | turn_channel_ => mkMember 296 4 22 1 false
  | wheelchair_ => mkMember 296 4 23 1 false
  | wheelchair_tag_ => mkMember 296 4 24 1 false
  | has_user_tags_ => mkMember 296 4 25 1 false
  | has_pronunciation_tags_ => mkMember 296 4 26 1 false
  | internal_ => mkMember 296 4 27 1 false
  | hov_type_ => mkMember 296 4 28 1 false
  | indoor_ => mkMember 296 4 29 1 false
  | pedestrian_forward_ => mkMember 296 4 30 1 false
  | pedestrian_backward_ => mkMember 296 4 31 1 false
  | auto_forward_ => mkMember 300 2 0 1 false
  | bus_forward_ => mkMember 300 2 1 1 false
  | taxi_forward_ => mkMember 300 2 2 1 false
  | truck_forward_ => mkMember 300 2 3 1 false
  | motorcycle_forward_ => mkMember 300 2 4 1 false
  | emergency_forward_ => mkMember 300 2 5 1 false
  | hov_forward_ => mkMember 300 2 6 1 false
  | moped_forward_ => mkMember 300 2 7 1 false
  | auto_backward_ => mkMember 300 2 8 1 false
  | bus_backward_ => mkMember 300 2 9 1 false
  | taxi_backward_ => mkMember 300 2 10 1 false
  | truck_backward_ => mkMember 300 2 11 1 false
  | motorcycle_backward_ => mkMember 300 2 12 1 false
  | emergency_backward_ => mkMember 300 2 13 1 false
  | hov_backward_ => mkMember 300 2 14 1 false
  | moped_backward_ => mkMember 300 2 15 1 false
  | cycle_lane_right_ => mkMember 302 2 0 2 false
  | cycle_lane_left_ => mkMember 302 2 2 2 false
  | cycle_lane_right_opposite_ => mkMember 302 2 4 1 false
  | cycle_lane_left_opposite_ => mkMember 302 2 5 1 false
  | shoulder_right_ => mkMember 302 2 6 1 false
  | shoulder_left_ => mkMember 302 2 7 1 false
  | dismount_ => mkMember 302 2 8 1 false
  | use_sidepath_ => mkMember 302 2 9 1 false
  | bike_forward_ => mkMember 302 2 10 1 false
  | bike_backward_ => mkMember 302 2 11 1 false
  | lit_ => mkMember 302 2 12 1 false
  | destination_only_hgv_ => mkMember 302 2 13 1 false
  | spare2_ => mkMember 302 2 14 2 false
  | nodecount_ => mkMember 304 2 0 16 false
  | speed_limit_ => mkMember 306 1 0 8 false
  | speed_ => mkMember 307 1 0 8 false
  | backward_speed_ => mkMember 308 1 0 8 false
  | forward_speed_ => mkMember 309 1 0 8 false
  | truck_speed_ => mkMember 310 1 0 8 false
  | truck_speed_forward_ => mkMember 311 1 0 8 false
  | truck_speed_backward_ => mkMember 312 1 0 8 false
  | layer_ => mkMember 313 1 0 8 true
  end.

(** [sizeof(struct OSMWay)] *)
Definition sizeof : nat := 320.

(** [s[index].f] *)
Definition get (s : block) (index : Z) (f : field) : outcome Z :=
  load_member s (slot sizeof index) (layout f).

(** [s[index].f = v] *)
Definition set (s : block) (index : Z) (f : field) (v : Z) : outcome block :=
  store_member s (slot sizeof index) (layout f) v.

End OSMWay.

(** ** [struct OSMNode]

    The id at offset 0, two 64-bit units of bit-fields at 8 and 16, one
    32-bit unit of bit-fields at 24, four [uint32_t] members from 28 to 40;
    padded to 48 bytes. *)

Module OSMNode.

Inductive field : Type :=
| osmid_ | name_index_ | ref_index_ | exit_to_index_ | named_intersection_
| country_iso_index_ | state_iso_index_ | traffic_signal_ | forward_signal_
| backward_signal_ | stop_sign_ | forward_stop_ | backward_stop_
| yield_sign_ | forward_yield_ | backward_yield_ | minor_ | direction_
| spare_ | access_ | type_ | intersection_ | non_link_edge_ | link_edge_
| shortlink_ | non_ferry_edge_ | ferry_edge_ | flat_loop_ | urban_
| tagged_access_ | private_access_ | cash_only_toll_ | spare1_ | bss_info_
| linguistic_info_index_ | lng7_ | lat7_.

Definition layout (f : field) : member :=
  match f with
  | osmid_ => mkMember 0 8 0 64 false
  | name_index_ => mkMember 8 8 0 21 false
  | ref_index_ => mkMember 8 8 21 21 false
  | exit_to_index_ => mkMember 8 8 42 21 false
  | named_intersection_ => mkMember 8 8 63 1 false
  | country_iso_index_ => mkMember 16 8 0 21 false
  | state_iso_index_ => mkMember 16 8 21 21 false
  | traffic_signal_ => mkMember 16 8 42 1 false
  | forward_signal_ => mkMember 16 8 43 1 false
  | backward_signal_ => mkMember 16 8 44 1 false
  | stop_sign_ => mkMember 16 8 45 1 false
  | forward_stop_ => mkMember 16 8 46 1 false
  | backward_stop_ => mkMember 16 8 47 1 false
  | yield_sign_ => mkMember 16 8 48 1 false
  | forward_yield_ => mkMember 16 8 49 1 false
  | backward_yield_ => mkMember 16 8 50 1 false
  | minor_ => mkMember 16 8 51 1 false
  | direction_ => mkMember 16 8 52 1 false
  | spare_ => mkMember 16 8 53 11 false
  | access_ => mkMember 24 4 0 12 false
  | type_ => mkMember 24 4 12 4 false
  | intersection_ => mkMember 24 4 16 1 false
  | non_link_edge_ => mkMember 24 4 17 1 false
  | link_edge_ => mkMember 24 4 18 1 false
  | shortlink_ => mkMember 24 4 19 1 false
  | non_ferry_edge_ => mkMember 24 4 20 1 false
  | ferry_edge_ => mkMember 24 4 21 1 false
  | flat_loop_ => mkMember 24 4 22 1 false
  | urban_ => mkMember 24 4 23 1 false
  | tagged_access_ => mkMember 24 4 24 1 false
  | private_access_ => mkMember 24 4 25 1 false
  | cash_only_toll_ => mkMember 24 4 26 1 false
  | spare1_ => mkMember 24 4 27 5 false
  | bss_info_ => mkMember 28 4 0 32 false
  | linguistic_info_index_ => mkMember 32 4 0 32 false
  | lng7_ => mkMember 36 4 0 32 false
  | lat7_ => mkMember 40 4 0 32 false
  end.

(** [sizeof(struct OSMNode)] *)
Definition sizeof : nat := 48.

(** [s[index].f] *)
Definition get (s : block) (index : Z) (f : field) : outcome Z :=
  load_member s (slot sizeof index) (layout f).

(** [s[index].f = v] *)
Definition set (s : block) (index : Z) (f : field) (v : Z) : outcome block :=
  store_member s (slot sizeof index) (layout f) v.

End OSMNode.

(** ** [struct OSMWayNode]

    The embedded node at offset 0 and the two indices at 48 and 52. *)

Module OSMWayNode.

Inductive field : Type :=
| node (m : OSMNode.field) | way_index | way_shape_node_index.

(** [offsetof(struct OSMWayNode, node)] *)
Definition node_off : nat := 0.

Definition layout (f : field) : member :=
  match f with
  | node m =>
      let l := OSMNode.layout m in
      mkMember (node_off + f_off l) (f_unit l) (f_shift l) (f_width l) (f_signed l)
  | way_index => mkMember 48 4 0 32 false
  | way_shape_node_index => mkMember 52 4 0 32 false
  end.

(** [sizeof(struct OSMWayNode)] *)
Definition sizeof : nat := 56.

(** [s[index].f] *)
Definition get (s : block) (index : Z) (f : field) : outcome Z :=
  load_member s (slot sizeof index) (layout f).

(** [s[index].f = v] *)
Definition set (s : block) (index : Z) (f : field) (v : Z) : outcome block :=
  store_member s (slot sizeof index) (layout f) v.

End OSMWayNode.

(** ** The allocator

    [avail] is the number of bytes [malloc] can still hand out and [junk]
    what the bytes of a fresh block hold: [malloc] does not initialise. *)

Record heap : Type := mkHeap { avail : Z; junk : nat -> byte }.

(** [malloc(n)]: [None] is the null pointer. *)
Definition malloc (h : heap) (n : Z) : option block :=
  if n <=? avail h then Some (map (junk h) (seq 0 (Z.to_nat n))) else None.

(** ** Files

    [contents] gives the bytes of the regular file at a path, [refused] the
    paths [fopen] fails on, [room] the bytes the device still takes. *)

Record filesys : Type := mkFilesys
  { contents : string -> option (list byte);
    refused : string -> bool;
    room : nat }.

Definition with_file (fs : filesys) (path : string) (data : list byte) (left : nat)
  : filesys :=
  {| contents := fun p => if String.eqb p path then Some data else contents fs p;
     refused := refused fs;
     room := left |}.

(** A stream opened for reading: the file's bytes and the position. *)
Record FILE : Type := mkFILE { f_data : list byte; f_pos : nat }.

(** [fopen(path, "wb")]: the file is created or cut to length zero; [None] is
    the null stream. *)
Definition fopen_wb (fs : filesys) (path : string) : option filesys :=
  if refused fs path then None else Some (with_file fs path [] (room fs)).

(** [fwrite(s, size, nmemb, stream)] on the stream of [path]: the bytes that
    fit are appended; the result is the number of whole records written.
    Reading past the end of [s] is undefined. *)
Definition fwrite (fs : filesys) (path : string) (s : block) (size : nat) (nmemb : Z)
  : outcome (filesys * Z) :=
  let total := Z.of_nat size * nmemb in
  if total <=? Z.of_nat (length s) then
    let written := firstn (room fs) (firstn (Z.to_nat total) s) in
    let old := match contents fs path with Some d => d | None => [] end in
    Ret (with_file fs path (old ++ written) (room fs - length written),
         Z.of_nat (length written) / Z.of_nat size)
  else Undef.

(** [fopen(path, "rb")] *)
Definition fopen_rb (fs : filesys) (path : string) : option FILE :=
  if refused fs path then None
  else match contents fs path with
       | Some d => Some (mkFILE d 0)
       | None => None
       end.

(** [fseek(f, 0, SEEK_END)] and [fseek(f, 0, SEEK_SET)] *)
Definition fseek_end (f : FILE) : FILE := mkFILE (f_data f) (length (f_data f)).
Definition fseek_set (f : FILE) : FILE := mkFILE (f_data f) 0.

(** [ftell(f)], a [long]. *)
Definition ftell (f : FILE) : Z :=
  if Z.of_nat (f_pos f) <=? LONG_MAX then Z.of_nat (f_pos f) else -1.

(** [fread(buffer, size, nmemb, f)]: the bytes the file still has, at most
    [size * nmemb], are copied to the start of [buffer]; writing past its end
    is undefined. *)
Definition fread (buffer : block) (size : nat) (nmemb : Z) (f : FILE)
  : outcome (block * FILE) :=
  let want := Z.to_nat (Z.of_nat size * nmemb) in
  let got := peek (f_data f) (f_pos f) (Nat.min want (length (f_data f) - f_pos f)) in
  b <- store buffer 0 got ;;
  Ret (b, mkFILE (f_data f) (f_pos f + length got)).

(** ** Array lifecycle and bulk I/O

    [osmway.c] and [osmdata.c] hold the same five functions, one copy for
    [struct OSMWay] and one for [struct OSMWayNode]; [size] is the [sizeof]
    of the record the copy is written for.  The fifth, [osmway_free] and
    [osmwaynode_free], hands the block to [free] and is not modelled. *)

Section Lifecycle.

Variable size : nat.

(** [osmway_new], [osmwaynode_new] *)
Definition array_new (h : heap) (count : Z) : outcome block :=
  let n := size_t (Z.of_nat size * count) in
  match malloc h n with
  | Some output => memset output 0 0 (Z.to_nat n)
  | None => Undef (* memset on the null pointer *)
  end.

(** [osmway_clear], [osmwaynode_clear] *)
Definition array_clear (s : block) (count : Z) : outcome block :=
  memset s 0 0 (Z.to_nat (size_t (Z.of_nat size * count))).

(** [osmway_export], [osmwaynode_export]: [count] is an [int], converted to
    [size_t] for [fwrite]; the result of [fwrite] is dropped and the function
    returns 1.  [fwrite] stores the bytes at once, so [fclose] has nothing
    left to do. *)
Definition array_export (fs : filesys) (s : block) (count : Z) (fileName : string)
  : outcome (filesys * Z) :=
  match fopen_wb fs fileName with
  | None => Undef (* fwrite and fclose on the null stream *)
  | Some fs =>
      r <- fwrite fs fileName s size (size_t count) ;;
      Ret (fst r, 1)
  end.

(** [osmway_import], [osmwaynode_import]: the results are [*buffer] and
    [*count]. *)
Definition array_import (h : heap) (fs : filesys) (fileName : string)
  : outcome (block * Z) :=
  match fopen_rb fs fileName with
  | None => Undef (* fseek on the null stream *)
  | Some inFile =>
      let inFile := fseek_end inFile in
      let count := size_t (ftell inFile) / Z.of_nat size in
      let inFile := fseek_set inFile in
      match malloc h (size_t (Z.of_nat size * count)) with
      | None => Undef (* fread into the null pointer *)
      | Some buffer =>
          r <- fread buffer size count inFile ;;
          Ret (fst r, count)
      end
  end.

End Lifecycle.

(** *** [osmway.c] *)

Definition osmway_new := array_new OSMWay.sizeof.
Definition osmway_clear := array_clear OSMWay.sizeof.
Definition osmway_export := array_export OSMWay.sizeof.
Definition osmway_import := array_import OSMWay.sizeof.

Definition osmway_set_to_valhalla (s : block) (index osmid name_index nodecount : Z)
  : outcome block :=
  s <- memset s (slot OSMWay.sizeof index) 0 OSMWay.sizeof ;;
  s <- OSMWay.set s index OSMWay.osmwayid_ osmid ;;
  s <- OSMWay.set s index OSMWay.name_index_ name_index ;;
  s <- OSMWay.set s index OSMWay.nodecount_ nodecount ;;
  s <- OSMWay.set s index OSMWay.surface_ 3 ;;
  s <- OSMWay.set s index OSMWay.drive_on_right_ 1 ;;
  s <- OSMWay.set s index OSMWay.road_class_ 7 ;;
  s <- OSMWay.set s index OSMWay.use_ 25 ;;
  s <- OSMWay.set s index OSMWay.has_user_tags_ 0 ;;
  s <- OSMWay.set s index OSMWay.pedestrian_forward_ 1 ;;
  s <- OSMWay.set s index OSMWay.pedestrian_backward_ 1 ;;
  OSMWay.set s index OSMWay.speed_ 25.

(** *** [osmdata.c] *)

Definition osmwaynode_new := array_new OSMWayNode.sizeof.
Definition osmwaynode_clear := array_clear OSMWayNode.sizeof.
Definition osmwaynode_export := array_export OSMWayNode.sizeof.
Definition osmwaynode_import := array_import OSMWayNode.sizeof.

(** [value] points to a [struct OSMNode] of the caller. *)
Definition osmwaynode_set_node (s : block) (index : Z) (value : block) : outcome block :=
  memcpy s (slot OSMWayNode.sizeof index + OSMWayNode.node_off)%nat value 0 OSMNode.sizeof.

(** The result is what [*value] holds on return. *)
Definition osmwaynode_get_node (s : block) (index : Z) (value : block) : outcome block :=
  memcpy value 0 s (slot OSMWayNode.sizeof index + OSMWayNode.node_off)%nat OSMNode.sizeof.

(** [osmnode_set_to_valhalla] is defined in [osmnode.c], which is not among
    the sources: it is a parameter, called with the block, the place of
    [&s[index].node] in it, index 0 and the four values. *)
Definition osmwaynode_set_to_valhalla
  (osmnode_set_to_valhalla : block -> nat -> Z -> Z -> Z -> Z -> Z -> outcome block)
  (s : block) (index way_index way_shape_node_index osmid lng7 lat7 intersection : Z)
  : outcome block :=
  s <- memset s (slot OSMWayNode.sizeof index) 0 OSMWayNode.sizeof ;;
  s <- OSMWayNode.set s index OSMWayNode.way_index way_index ;;
  s <- OSMWayNode.set s index OSMWayNode.way_shape_node_index way_shape_node_index ;;
  osmnode_set_to_valhalla s (slot OSMWayNode.sizeof index + OSMWayNode.node_off)%nat
    0 osmid lng7 lat7 intersection.

(** *** [osmnode.c] *)

(** [osmnode.c] is not among the sources.  The spec gives one allocate,
    clear, export and import "parameterized over record type" for the three
    record types, and [osmway.c] says of its import that it is "similar to
    osmnode_import": the Node copies are taken to be the same functions at
    [sizeof(struct OSMNode)]. *)

(** Modelled from the spec: [osmnode_new], of the missing [osmnode.c]; the
    spec's [allocate(count)]. *)
Definition osmnode_new := array_new OSMNode.sizeof.

(** Modelled from the spec: [osmnode_clear], of the missing [osmnode.c]; the
    spec's [clear(array, count)]. *)
Definition osmnode_clear := array_clear OSMNode.sizeof.

(** Modelled from the spec: [osmnode_export], of the missing [osmnode.c]; the
    spec's [export(array, count, path)]. *)
Definition osmnode_export := array_export OSMNode.sizeof.

(** Modelled from the spec: [osmnode_import], of the missing [osmnode.c]; the
    spec's [import(path)]. *)
Definition osmnode_import := array_import OSMNode.sizeof.

(** ** The default profile of a Way

    What [osmway_set_to_valhalla] leaves in each member: the three arguments
    converted to the types of their members, the eight literals of the
    function, and zero everywhere else. *)
Definition valhalla_way (osmid name_index nodecount : Z) (f : OSMWay.field) : Z :=
  match f with
  | OSMWay.osmwayid_ => osmid mod 2 ^ 64
  | OSMWay.name_index_ => name_index mod 2 ^ 32
  | OSMWay.nodecount_ => nodecount mod 2 ^ 16
  | OSMWay.surface_ => 3
  | OSMWay.drive_on_right_ => 1
  | OSMWay.road_class_ => 7
  | OSMWay.use_ => 25
  | OSMWay.pedestrian_forward_ => 1
  | OSMWay.pedestrian_backward_ => 1
  | OSMWay.speed_ => 25
  | _ => 0
  end.

(** ** Arrays and values

    [s] is an array of [count] records of [size] bytes: a block of exactly
    that many bytes. *)
Definition array_of (size : nat) (count : Z) (s : block) : Prop :=
  0 <= count /\ length s = (Z.to_nat count * size)%nat.

(** [n] is a [struct OSMNode] value. *)
Definition is_node (n : block) : Prop := length n = OSMNode.sizeof.

(** [k] zero bytes. *)
Definition zeros (k : nat) : block := repeat Byte.x00 k.

(** Every member of every record that lies in [a] is zero, and so is every
    byte of [a]. *)
Definition zero_filled {field : Type} (get : block -> Z -> field -> outcome Z)
  (size : nat) (a : block) : Prop :=
  a = zeros (length a)
  /\ forall index f,
       0 <= index -> (slot size index + size <= length a)%nat ->
       get a index f = Ret 0.

(** ** Assignment inside one record

    What [store_member] does to a record [r] that holds the whole storage
    unit of the member: the record with the member's bits replaced. *)
Definition put_member (r : block) (l : member) (v : Z) : block :=
  poke r (f_off l)
    (le_split (f_unit l) (set_bits (le_combine (peek r (f_off l) (f_unit l))) l v)).

(** ** Environments for the examples *)

(** An empty device with [left] bytes of room on which every path opens but
    the empty one, which no [fopen] accepts. *)
Definition empty_disk (left : nat) : filesys :=
  mkFilesys (fun _ => None) (fun p => String.eqb p EmptyString) left.

(** [data] stored at [path] on an empty device. *)
Definition disk_with (path : string) (data : list byte) : filesys :=
  with_file (empty_disk 0) path data 0.

(** An allocator with [n] bytes left, whose fresh blocks hold 0xff. *)
Definition heap_of (n : Z) : heap := mkHeap n (fun _ => Byte.xff).

(** * Proofs *)

(** ** Lemmas on blocks *)

Lemma length_peek b off n :
  (off + n <= length b)%nat -> length (peek b off n) = n.
Proof.
  intros H. unfold peek. rewrite length_firstn, length_skipn. lia.
Qed.

Lemma length_poke b off bytes :
  (off + length bytes <= length b)%nat -> length (poke b off bytes) = length b.
Proof.
  intros H. unfold poke.
  rewrite !length_app, length_firstn, length_skipn. lia.
Qed.

Lemma peek_poke_same b off bytes :
  (off + length bytes <= length b)%nat ->
  peek (poke b off bytes) off (length bytes) = bytes.
Proof.
  intros H. unfold peek, poke.
  rewrite skipn_app, length_firstn.
  replace (Nat.min off (length b)) with off by lia.
  rewrite Nat.sub_diag, skipn_firstn_comm, Nat.sub_diag. cbn [firstn skipn app].
  rewrite firstn_app, Nat.sub_diag, firstn_all. cbn [firstn]. apply app_nil_r.
Qed.

Lemma peek_poke_same_n b off bytes n :
  length bytes = n -> (off + n <= length b)%nat ->
  peek (poke b off bytes) off n = bytes.
Proof. intros <-. apply peek_poke_same. Qed.

Lemma peek_poke_apart b off bytes off' n :
  (off + length bytes <= length b)%nat ->
  (off' + n <= off \/ off + length bytes <= off')%nat ->
  peek (poke b off bytes) off' n = peek b off' n.
Proof.
  intros H [Hd | Hd]; unfold peek, poke.
  - rewrite skipn_app, length_firstn.
    replace (off' - Nat.min off (length b))%nat with 0%nat by lia.
    cbn [skipn]. rewrite firstn_app, length_skipn, length_firstn.
    replace (n - (Nat.min off (length b) - off'))%nat with 0%nat by lia.
    cbn [firstn]. rewrite app_nil_r, skipn_firstn_comm, firstn_firstn.
    f_equal. lia.
  - rewrite skipn_app, length_firstn.
    replace (Nat.min off (length b)) with off by lia.
    rewrite (skipn_all2 (firstn off b)) by (rewrite length_firstn; lia).
    cbn [app]. rewrite skipn_app.
    rewrite (skipn_all2 bytes) by lia. cbn [app].
    rewrite skipn_skipn. do 2 f_equal. lia.
Qed.

Lemma peek_app_mid (a m c : list byte) off n :
  (length a <= off)%nat -> (off + n <= length a + length m)%nat ->
  peek (a ++ m ++ c) off n = peek m (off - length a) n.
Proof.
  intros H1 H2. unfold peek.
  rewrite skipn_app, (skipn_all2 a) by lia. cbn [app].
  rewrite skipn_app, firstn_app, length_skipn.
  replace (n - (length m - (off - length a)))%nat with 0%nat by lia.
  cbn [firstn]. apply app_nil_r.
Qed.

Lemma peek_repeat (c : byte) k off n :
  (off + n <= k)%nat -> peek (repeat c k) off n = repeat c n.
Proof.
  intros H.
  replace k with (off + (n + (k - off - n)))%nat by lia.
  rewrite !repeat_app, peek_app_mid by (rewrite ?repeat_length; lia).
  rewrite repeat_length, Nat.sub_diag. unfold peek. cbn [skipn].
  rewrite <- (repeat_length c n) at 1. apply firstn_all.
Qed.

(** ** Lemmas on bit-fields *)

Lemma testbit_get_bits u l i :
  0 <= f_shift l -> 0 <= f_width l -> 0 <= i ->
  Z.testbit (get_bits u l) i = Z.testbit u (i + f_shift l) && (i <? f_width l).
Proof.
  intros Hs Hw Hi. unfold get_bits.
  rewrite Z.land_spec, Z.shiftr_spec, Z.testbit_ones_nonneg by lia. reflexivity.
Qed.

Lemma testbit_set_bits u l v i :
  0 <= f_shift l -> 0 <= f_width l -> 0 <= i ->
  Z.testbit (set_bits u l v) i =
  if (f_shift l <=? i) && (i <? f_shift l + f_width l)
  then Z.testbit v (i - f_shift l) else Z.testbit u i.
Proof.
  intros Hs Hw Hi. unfold set_bits.
  rewrite Z.lor_spec, Z.ldiff_spec, !Z.shiftl_spec, Z.land_spec by lia.
  destruct (Z.leb_spec (f_shift l) i) as [Hle | Hlt].
  - rewrite !Z.testbit_ones_nonneg by lia.
    destruct (Z.ltb_spec i (f_shift l + f_width l)) as [H1 | H1];
      destruct (Z.ltb_spec (i - f_shift l) (f_width l)) as [H2 | H2];
      try lia; cbn [andb negb orb].
    + rewrite andb_false_r, andb_true_r. reflexivity.
    + rewrite andb_true_r, andb_false_r, orb_false_r. reflexivity.
  - rewrite !(Z.testbit_neg_r _ (i - f_shift l)) by lia.
    cbn [andb negb]. rewrite andb_true_r, orb_false_r. reflexivity.
Qed.

Lemma get_bits_mod u l n :
  0 <= f_shift l -> 0 <= f_width l -> f_shift l + f_width l <= n ->
  get_bits (u mod 2 ^ n) l = get_bits u l.
Proof.
  intros Hs Hw Hn. apply Z.bits_inj'. intros i Hi.
  rewrite !testbit_get_bits by lia.
  destruct (Z.ltb_spec i (f_width l)) as [H | H].
  - rewrite Z.mod_pow2_bits_low by lia. reflexivity.
  - rewrite !andb_false_r. reflexivity.
Qed.

Lemma get_set_bits_same u l v :
  0 <= f_shift l -> 0 <= f_width l ->
  get_bits (set_bits u l v) l = v mod 2 ^ f_width l.
Proof.
  intros Hs Hw. apply Z.bits_inj'. intros i Hi.
  rewrite testbit_get_bits, testbit_set_bits by lia.
  destruct (Z.ltb_spec i (f_width l)) as [H | H].
  - rewrite Z.mod_pow2_bits_low by lia.
    replace (f_shift l <=? i + f_shift l) with true by (symmetry; apply Z.leb_le; lia).
    replace (i + f_shift l <? f_shift l + f_width l) with true
      by (symmetry; apply Z.ltb_lt; lia).
    cbn [andb]. rewrite andb_true_r. f_equal. lia.
  - rewrite andb_false_r, Z.mod_pow2_bits_high by lia. reflexivity.
Qed.

Lemma get_set_bits_apart u l v l' :
  0 <= f_shift l -> 0 <= f_width l -> 0 <= f_shift l' -> 0 <= f_width l' ->
  f_shift l + f_width l <= f_shift l' \/ f_shift l' + f_width l' <= f_shift l ->
  get_bits (set_bits u l v) l' = get_bits u l'.
Proof.
  intros Hs Hw Hs' Hw' Hd. apply Z.bits_inj'. intros i Hi.
  rewrite !testbit_get_bits, testbit_set_bits by lia.
  destruct (Z.ltb_spec i (f_width l')) as [H | H].
  - destruct (Z.leb_spec (f_shift l) (i + f_shift l')); cbn [andb]; try reflexivity.
    destruct (Z.ltb_spec (i + f_shift l') (f_shift l + f_width l));
      cbn [andb]; try reflexivity.
    lia.
  - rewrite !andb_false_r. reflexivity.
Qed.

(** ** Lemmas on loads and stores *)

Lemma store_inv b off bytes b' :
  store b off bytes = Ret b' ->
  (off + length bytes <= length b)%nat /\ b' = poke b off bytes.
Proof.
  unfold store, in_block. destruct (Nat.leb_spec (off + length bytes) (length b)).
  - intros [= <-]. auto.
  - discriminate.
Qed.

Lemma store_in b off bytes :
  (off + length bytes <= length b)%nat -> store b off bytes = Ret (poke b off bytes).
Proof.
  intros H. unfold store, in_block.
  apply Nat.leb_le in H. rewrite H. reflexivity.
Qed.

Lemma store_out b off bytes :
  (length b < off + length bytes)%nat -> store b off bytes = Undef.
Proof.
  intros H. unfold store, in_block.
  apply Nat.leb_gt in H. rewrite H. reflexivity.
Qed.

Lemma load_in b off n :
  (off + n <= length b)%nat -> load b off n = Ret (peek b off n).
Proof.
  intros H. unfold load, in_block.
  apply Nat.leb_le in H. rewrite H. reflexivity.
Qed.

Lemma load_out b off n :
  (length b < off + n)%nat -> load b off n = Undef.
Proof.
  intros H. unfold load, in_block.
  apply Nat.leb_gt in H. rewrite H. reflexivity.
Qed.

Lemma store_length b off bytes b' :
  store b off bytes = Ret b' -> length b' = length b.
Proof.
  intros H. apply store_inv in H as [Hin ->]. apply length_poke, Hin.
Qed.

Lemma load_store_frame b off bytes b' off' n :
  store b off bytes = Ret b' ->
  (off' + n <= off \/ off + length bytes <= off')%nat ->
  load b' off' n = load b off' n.
Proof.
  intros H Hd. pose proof (store_length _ _ _ _ H) as Hlen.
  apply store_inv in H as [Hin ->].
  unfold load, in_block. rewrite Hlen.
  destruct (off' + n <=? length b)%nat; [|reflexivity].
  f_equal. apply peek_poke_apart; assumption.
Qed.

Lemma member_ok_inv l :
  member_ok l = true ->
  0 <= f_shift l /\ 0 < f_width l /\ f_shift l + f_width l <= 8 * Z.of_nat (f_unit l).
Proof.
  unfold member_ok. rewrite !andb_true_iff, Z.leb_le, Z.ltb_lt, Z.leb_le. tauto.
Qed.

Lemma store_member_in b base l v :
  (base + f_off l + f_unit l <= length b)%nat ->
  exists b', store_member b base l v = Ret b' /\ length b' = length b.
Proof.
  intros H. unfold store_member. rewrite load_in by lia. cbn [bind].
  rewrite store_in by (rewrite length_le_split; lia).
  eexists. split; [reflexivity|].
  apply length_poke. rewrite length_le_split. lia.
Qed.

Lemma store_member_out b base l v :
  (length b < base + f_off l + f_unit l)%nat -> store_member b base l v = Undef.
Proof.
  intros H. unfold store_member. rewrite load_out by lia. reflexivity.
Qed.

Lemma store_member_length b base l v b' :
  store_member b base l v = Ret b' -> length b' = length b.
Proof.
  unfold store_member, load.
  destruct (in_block b (base + f_off l) (f_unit l)); [|discriminate].
  cbn [bind]. apply store_length.
Qed.

Lemma load_member_out b base l :
  (length b < base + f_off l + f_unit l)%nat -> load_member b base l = Undef.
Proof.
  intros H. unfold load_member. rewrite load_out by lia. reflexivity.
Qed.

Lemma load_store_member_same b base l v b' :
  member_ok l = true ->
  store_member b base l v = Ret b' ->
  load_member b' base l = Ret (wrap l v).
Proof.
  intros Hok H. apply member_ok_inv in Hok as (Hs & Hw & Hu).
  unfold store_member, load, in_block in H.
  destruct (Nat.leb_spec (base + f_off l + f_unit l) (length b)) as [Hin | Hin];
    [|discriminate].
  cbn [bind] in H. apply store_inv in H as [Hin' ->].
  unfold load_member. rewrite load_in by (rewrite length_poke; lia).
  cbn [bind]. f_equal. unfold wrap. f_equal.
  rewrite peek_poke_same_n by (rewrite ?length_le_split; lia).
  rewrite le_combine_split.
  rewrite get_bits_mod by lia. apply get_set_bits_same; lia.
Qed.

Lemma load_store_member_apart b base l v b' base' l' :
  member_ok l = true -> member_ok l' = true ->
  apart base l base' l' = true ->
  store_member b base l v = Ret b' ->
  load_member b' base' l' = load_member b base' l'.
Proof.
  intros Hok Hok' Hap H.
  apply member_ok_inv in Hok as (Hs & Hw & Hu).
  apply member_ok_inv in Hok' as (Hs' & Hw' & Hu').
  unfold store_member, load, in_block in H.
  destruct (Nat.leb_spec (base + f_off l + f_unit l) (length b)) as [Hin | Hin];
    [|discriminate].
  cbn [bind] in H.
  unfold apart in Hap. rewrite !orb_true_iff, !andb_true_iff in Hap.
  rewrite !Nat.leb_le, !Nat.eqb_eq, !orb_true_iff, !Z.leb_le in Hap.
  destruct Hap as [[Hap | Hap] | [[Ho Hun] Hbits]].
  - unfold load_member.
    rewrite (load_store_frame _ _ _ _ _ _ H)
      by (rewrite length_le_split; lia).
    reflexivity.
  - unfold load_member.
    rewrite (load_store_frame _ _ _ _ _ _ H)
      by (rewrite length_le_split; lia).
    reflexivity.
  - apply store_inv in H as [Hin' ->].
    unfold load_member. rewrite <- Ho, <- Hun.
    rewrite !load_in by (rewrite ?length_poke; lia).
    cbn [bind]. do 2 f_equal.
    rewrite peek_poke_same_n by (rewrite ?length_le_split; lia).
    rewrite le_combine_split.
    rewrite get_bits_mod by lia.
    apply get_set_bits_apart; lia.
Qed.

Lemma interp_0 l : 0 < f_width l -> interp l 0 = 0.
Proof.
  intros H. unfold interp.
  destruct (Z.leb_spec (2 ^ (f_width l - 1)) 0) as [Hle | Hlt].
  - pose proof (Z.pow_pos_nonneg 2 (f_width l - 1)). lia.
  - rewrite andb_false_r. reflexivity.
Qed.

Lemma get_bits_0 l : get_bits 0 l = 0.
Proof. unfold get_bits. rewrite Z.shiftr_0_l. apply Z.land_0_l. Qed.

(** A member whose storage unit lies in a zero-filled range reads as zero. *)
Lemma load_member_zeros b off n b' base l :
  member_ok l = true ->
  memset b off 0 n = Ret b' ->
  (off <= base + f_off l)%nat -> (base + f_off l + f_unit l <= off + n)%nat ->
  load_member b' base l = Ret 0.
Proof.
  intros Hok H H1 H2. apply member_ok_inv in Hok as (Hs & Hw & Hu).
  unfold memset in H. pose proof (store_length _ _ _ _ H) as Hlen.
  apply store_inv in H as [Hin ->]. rewrite repeat_length in *.
  unfold load_member. rewrite load_in by lia. cbn [bind]. f_equal.
  unfold poke.
  rewrite peek_app_mid
    by (rewrite ?length_firstn, ?repeat_length; lia).
  rewrite peek_repeat by (rewrite length_firstn; lia).
  change (byte.of_Z 0) with Byte.x00.
  rewrite le_combine_0, get_bits_0. apply interp_0, Hw.
Qed.

(** A member outside the range a store writes keeps its value. *)
Lemma load_member_frame b off bytes b' base l :
  store b off bytes = Ret b' ->
  (base + f_off l + f_unit l <= off \/ off + length bytes <= base + f_off l)%nat ->
  load_member b' base l = load_member b base l.
Proof.
  intros H Hd. unfold load_member.
  rewrite (load_store_frame _ _ _ _ _ _ H) by lia. reflexivity.
Qed.

(** ** Members of the records of an array *)

Lemma apart_same_slot base l l' :
  apart 0 l 0 l' = true -> apart base l base l' = true.
Proof.
  unfold apart. rewrite !orb_true_iff, !andb_true_iff, !Nat.leb_le, !Nat.eqb_eq.
  intros [[H | H] | [[H1 H2] H3]]; [left; left | left; right | right]; lia.
Qed.

Lemma apart_other_slot size i j l l' :
  0 <= i -> 0 <= j -> i <> j ->
  (f_off l + f_unit l <= size)%nat -> (f_off l' + f_unit l' <= size)%nat ->
  apart (slot size i) l (slot size j) l' = true.
Proof.
  intros Hi Hj Hij Hl Hl'. unfold apart, slot.
  rewrite !orb_true_iff, !Nat.leb_le. left.
  destruct (Z.lt_total i j) as [H | [H | H]]; [left | contradiction | right].
  - assert (Z.to_nat i + 1 <= Z.to_nat j)%nat as Hle by lia.
    apply (Nat.mul_le_mono_r _ _ size) in Hle. lia.
  - assert (Z.to_nat j + 1 <= Z.to_nat i)%nat as Hle by lia.
    apply (Nat.mul_le_mono_r _ _ size) in Hle. lia.
Qed.

Lemma slot_in size index count :
  0 <= index < count ->
  (slot size index + size <= Z.to_nat count * size)%nat.
Proof.
  intros H. unfold slot.
  assert (Z.to_nat index + 1 <= Z.to_nat count)%nat as Hle by lia.
  apply (Nat.mul_le_mono_r _ _ size) in Hle. lia.
Qed.

Lemma slot_out size index count :
  0 <= count <= index ->
  (Z.to_nat count * size <= slot size index)%nat.
Proof.
  intros H. unfold slot. apply Nat.mul_le_mono_r. lia.
Qed.

Section RecordArray.

Variable field : Type.
Variable layout : field -> member.
Variable size : nat.

Hypothesis layout_ok : forall f, member_ok (layout f) = true.
Hypothesis layout_fits : forall f, (f_off (layout f) + f_unit (layout f) <= size)%nat.
Hypothesis layout_apart :
  forall f g, f <> g -> apart 0 (layout f) 0 (layout g) = true.

Let get (s : block) (index : Z) (f : field) : outcome Z :=
  load_member s (slot size index) (layout f).
Let set (s : block) (index : Z) (f : field) (v : Z) : outcome block :=
  store_member s (slot size index) (layout f) v.

Lemma set_in s index f v :
  (slot size index + size <= length s)%nat ->
  exists s', set s index f v = Ret s' /\ length s' = length s.
Proof.
  intros H. apply store_member_in. specialize (layout_fits f). lia.
Qed.

Lemma set_length s index f v s' :
  set s index f v = Ret s' -> length s' = length s.
Proof. apply store_member_length. Qed.

Lemma get_set_same s index f v s' :
  set s index f v = Ret s' -> get s' index f = Ret (wrap (layout f) v).
Proof. apply load_store_member_same, layout_ok. Qed.

Lemma get_set_other s index f v s' g :
  f <> g -> set s index f v = Ret s' -> get s' index g = get s index g.
Proof.
  intros Hfg H.
  apply (load_store_member_apart _ _ _ _ _ _ _ (layout_ok f) (layout_ok g)
           (apart_same_slot _ _ _ (layout_apart f g Hfg)) H).
Qed.

Lemma get_set_other_slot s index f v s' j g :
  0 <= index -> 0 <= j -> index <> j ->
  set s index f v = Ret s' -> get s' j g = get s j g.
Proof.
  intros Hi Hj Hij H.
  apply (load_store_member_apart _ _ _ _ _ _ _ (layout_ok f) (layout_ok g)
           (apart_other_slot size index j _ _ Hi Hj Hij (layout_fits f) (layout_fits g)) H).
Qed.

Lemma get_in s index f :
  (slot size index + size <= length s)%nat -> exists v, get s index f = Ret v.
Proof.
  intros H. unfold get, load_member. specialize (layout_fits f).
  rewrite load_in by lia. cbn [bind]. eexists. reflexivity.
Qed.

(** Every member of a record inside a zero-filled range reads as zero. *)
Lemma get_zeros s off n s' index f :
  memset s off 0 n = Ret s' ->
  (off <= slot size index)%nat -> (slot size index + size <= off + n)%nat ->
  get s' index f = Ret 0.
Proof.
  intros H H1 H2. specialize (layout_fits f).
  apply (load_member_zeros _ _ _ _ _ _ (layout_ok f) H); lia.
Qed.

(** A store outside a record leaves its members as they were. *)
Lemma get_frame s off bytes s' index f :
  store s off bytes = Ret s' ->
  (slot size index + size <= off \/ off + length bytes <= slot size index)%nat ->
  get s' index f = get s index f.
Proof.
  intros H Hd. specialize (layout_fits f).
  apply (load_member_frame _ _ _ _ _ _ H). lia.
Qed.

End RecordArray.

(** ** The layouts are sound: every member lies in a storage unit inside
    its record, and no two members of a record share a bit. *)

Lemma OSMWay_layout_ok f : member_ok (OSMWay.layout f) = true.
Proof. destruct f; reflexivity. Qed.

Lemma OSMWay_layout_fits f :
  (f_off (OSMWay.layout f) + f_unit (OSMWay.layout f) <= OSMWay.sizeof)%nat.
Proof. apply Nat.leb_le. destruct f; reflexivity. Qed.

Lemma OSMWay_layout_apart f g :
  f <> g -> apart 0 (OSMWay.layout f) 0 (OSMWay.layout g) = true.
Proof.
  destruct f; destruct g; intros H;
    first [reflexivity | exfalso; apply H; reflexivity].
Qed.

Lemma OSMNode_layout_ok f : member_ok (OSMNode.layout f) = true.
Proof. destruct f; reflexivity. Qed.

Lemma OSMNode_layout_fits f :
  (f_off (OSMNode.layout f) + f_unit (OSMNode.layout f) <= OSMNode.sizeof)%nat.
Proof. apply Nat.leb_le. destruct f; reflexivity. Qed.

Lemma OSMNode_layout_apart f g :
  f <> g -> apart 0 (OSMNode.layout f) 0 (OSMNode.layout g) = true.
Proof.
  destruct f; destruct g; intros H;
    first [reflexivity | exfalso; apply H; reflexivity].
Qed.

Lemma OSMWayNode_layout_ok f : member_ok (OSMWayNode.layout f) = true.
Proof. destruct f as [m | |]; [destruct m|..]; reflexivity. Qed.

Lemma OSMWayNode_layout_fits f :
  (f_off (OSMWayNode.layout f) + f_unit (OSMWayNode.layout f) <= OSMWayNode.sizeof)%nat.
Proof. apply Nat.leb_le. destruct f as [m | |]; [destruct m|..]; reflexivity. Qed.

Lemma OSMWayNode_layout_apart f g :
  f <> g -> apart 0 (OSMWayNode.layout f) 0 (OSMWayNode.layout g) = true.
Proof.
  destruct f as [m | |]; destruct g as [m' | |]; intros H;
    try reflexivity; try (exfalso; apply H; reflexivity);
    try (destruct m; reflexivity); try (destruct m'; reflexivity).
  assert (m <> m') as Hm by (intros ->; apply H; reflexivity).
  apply (OSMNode_layout_apart _ _ Hm).
Qed.

(** The embedded node lies at the start of the record, before the indices. *)
Lemma OSMWayNode_node_fits m :
  (f_off (OSMWayNode.layout (OSMWayNode.node m))
   + f_unit (OSMWayNode.layout (OSMWayNode.node m))
   <= OSMWayNode.node_off + OSMNode.sizeof)%nat.
Proof. apply Nat.leb_le. destruct m; reflexivity. Qed.

(** ** [osmway_set_to_valhalla] *)

Lemma memset_in s off c n :
  (off + n <= length s)%nat ->
  exists s', memset s off c n = Ret s' /\ length s' = length s.
Proof.
  intros H. unfold memset. rewrite store_in by (rewrite repeat_length; lia).
  eexists. split; [reflexivity|]. apply length_poke. rewrite repeat_length. lia.
Qed.

Lemma memset_out s off c n :
  (length s < off + n)%nat -> memset s off c n = Undef.
Proof. intros H. unfold memset. apply store_out. rewrite repeat_length. lia. Qed.

Lemma OSMWay_set_in s index f v :
  (slot OSMWay.sizeof index + OSMWay.sizeof <= length s)%nat ->
  exists s', OSMWay.set s index f v = Ret s' /\ length s' = length s.
Proof. apply (set_in _ _ _ OSMWay_layout_fits). Qed.

Lemma OSMWay_get_set_same s index f v s' :
  OSMWay.set s index f v = Ret s' ->
  OSMWay.get s' index f = Ret (wrap (OSMWay.layout f) v).
Proof. apply (get_set_same _ _ _ OSMWay_layout_ok). Qed.

Lemma OSMWay_get_set_other s index f v s' g :
  f <> g -> OSMWay.set s index f v = Ret s' ->
  OSMWay.get s' index g = OSMWay.get s index g.
Proof. apply (get_set_other _ _ _ OSMWay_layout_ok OSMWay_layout_apart). Qed.

Lemma OSMWay_get_set_other_slot s index f v s' j g :
  0 <= index -> 0 <= j -> index <> j ->
  OSMWay.set s index f v = Ret s' -> OSMWay.get s' j g = OSMWay.get s j g.
Proof. apply (get_set_other_slot _ _ _ OSMWay_layout_ok OSMWay_layout_fits). Qed.

Lemma OSMWay_get_zeros s off n s' index f :
  memset s off 0 n = Ret s' ->
  (off <= slot OSMWay.sizeof index)%nat ->
  (slot OSMWay.sizeof index + OSMWay.sizeof <= off + n)%nat ->
  OSMWay.get s' index f = Ret 0.
Proof. apply (get_zeros _ _ _ OSMWay_layout_ok OSMWay_layout_fits). Qed.

Lemma OSMWay_get_frame s off bytes s' index f :
  store s off bytes = Ret s' ->
  (slot OSMWay.sizeof index + OSMWay.sizeof <= off
   \/ off + length bytes <= slot OSMWay.sizeof index)%nat ->
  OSMWay.get s' index f = OSMWay.get s index f.
Proof. apply (get_frame _ _ _ OSMWay_layout_fits). Qed.

Lemma OSMWayNode_set_in s index f v :
  (slot OSMWayNode.sizeof index + OSMWayNode.sizeof <= length s)%nat ->
  exists s', OSMWayNode.set s index f v = Ret s' /\ length s' = length s.
Proof. apply (set_in _ _ _ OSMWayNode_layout_fits). Qed.

Lemma OSMWayNode_get_set_same s index f v s' :
  OSMWayNode.set s index f v = Ret s' ->
  OSMWayNode.get s' index f = Ret (wrap (OSMWayNode.layout f) v).
Proof. apply (get_set_same _ _ _ OSMWayNode_layout_ok). Qed.

Lemma OSMWayNode_get_set_other s index f v s' g :
  f <> g -> OSMWayNode.set s index f v = Ret s' ->
  OSMWayNode.get s' index g = OSMWayNode.get s index g.
Proof. apply (get_set_other _ _ _ OSMWayNode_layout_ok OSMWayNode_layout_apart). Qed.

Lemma OSMWayNode_get_set_other_slot s index f v s' j g :
  0 <= index -> 0 <= j -> index <> j ->
  OSMWayNode.set s index f v = Ret s' -> OSMWayNode.get s' j g = OSMWayNode.get s j g.
Proof. apply (get_set_other_slot _ _ _ OSMWayNode_layout_ok OSMWayNode_layout_fits). Qed.

Lemma OSMWayNode_get_zeros s off n s' index f :
  memset s off 0 n = Ret s' ->
  (off <= slot OSMWayNode.sizeof index)%nat ->
  (slot OSMWayNode.sizeof index + OSMWayNode.sizeof <= off + n)%nat ->
  OSMWayNode.get s' index f = Ret 0.
Proof. apply (get_zeros _ _ _ OSMWayNode_layout_ok OSMWayNode_layout_fits). Qed.

Lemma OSMWayNode_get_frame s off bytes s' index f :
  store s off bytes = Ret s' ->
  (slot OSMWayNode.sizeof index + OSMWayNode.sizeof <= off
   \/ off + length bytes <= slot OSMWayNode.sizeof index)%nat ->
  OSMWayNode.get s' index f = OSMWayNode.get s index f.
Proof. apply (get_frame _ _ _ OSMWayNode_layout_fits). Qed.

(** One assignment [s[index].f = v] of a function body, inside the array. *)
Ltac assign s' Hset Hlen :=
  match goal with
  | Hin : (slot OSMWay.sizeof ?i + OSMWay.sizeof <= length ?s)%nat
    |- context [OSMWay.set ?s ?i ?f ?v] =>
      destruct (OSMWay_set_in s i f v Hin) as (s' & Hset & Hlen);
      rewrite Hset; cbn [bind];
      rewrite <- Hlen in Hin
  end.

(** Reads a member back through the assignments that followed it. *)
Ltac read_back :=
  repeat match goal with
    | H : OSMWay.set _ ?i ?f _ = Ret ?s |- OSMWay.get ?s ?i ?g = _ =>
        first [ rewrite (OSMWay_get_set_other _ _ f _ _ g ltac:(discriminate) H)
              | rewrite (OSMWay_get_set_same _ _ _ _ _ H) ]
    end.

Lemma osmway_set_to_valhalla_spec s index osmid name_index nodecount :
  0 <= index ->
  (slot OSMWay.sizeof index + OSMWay.sizeof <= length s)%nat ->
  exists s',
    osmway_set_to_valhalla s index osmid name_index nodecount = Ret s'
    /\ length s' = length s
    /\ (forall f, OSMWay.get s' index f
                   = Ret (valhalla_way osmid name_index nodecount f))
    /\ (forall j f, 0 <= j -> j <> index -> OSMWay.get s' j f = OSMWay.get s j f).
Proof.
  intros Hi Hin. unfold osmway_set_to_valhalla.
  destruct (memset_in s (slot OSMWay.sizeof index) 0 OSMWay.sizeof Hin)
    as (s0 & Hm & Hl0).
  rewrite Hm. cbn [bind]. pose proof Hin as Hin0. rewrite <- Hl0 in Hin.
  assign s1 H1 Hl1. assign s2 H2 Hl2. assign s3 H3 Hl3. assign s4 H4 Hl4.
  assign s5 H5 Hl5. assign s6 H6 Hl6. assign s7 H7 Hl7. assign s8 H8 Hl8.
  assign s9 H9 Hl9. assign s10 H10 Hl10.
  destruct (OSMWay_set_in s10 index OSMWay.speed_ 25 Hin) as (s11 & H11 & Hl11).
  exists s11. split; [exact H11|]. split; [congruence|]. split.
  - intros f.
    destruct f; read_back;
      first [ reflexivity
            | apply (OSMWay_get_zeros _ _ _ _ _ _ Hm); lia ].
  - intros j f Hj Hne.
    rewrite (OSMWay_get_set_other_slot _ _ _ _ _ j f Hi Hj (not_eq_sym Hne) H11).
    rewrite (OSMWay_get_set_other_slot _ _ _ _ _ j f Hi Hj (not_eq_sym Hne) H10).
    rewrite (OSMWay_get_set_other_slot _ _ _ _ _ j f Hi Hj (not_eq_sym Hne) H9).
    rewrite (OSMWay_get_set_other_slot _ _ _ _ _ j f Hi Hj (not_eq_sym Hne) H8).
    rewrite (OSMWay_get_set_other_slot _ _ _ _ _ j f Hi Hj (not_eq_sym Hne) H7).
    rewrite (OSMWay_get_set_other_slot _ _ _ _ _ j f Hi Hj (not_eq_sym Hne) H6).
    rewrite (OSMWay_get_set_other_slot _ _ _ _ _ j f Hi Hj (not_eq_sym Hne) H5).
    rewrite (OSMWay_get_set_other_slot _ _ _ _ _ j f Hi Hj (not_eq_sym Hne) H4).
    rewrite (OSMWay_get_set_other_slot _ _ _ _ _ j f Hi Hj (not_eq_sym Hne) H3).
    rewrite (OSMWay_get_set_other_slot _ _ _ _ _ j f Hi Hj (not_eq_sym Hne) H2).
    rewrite (OSMWay_get_set_other_slot _ _ _ _ _ j f Hi Hj (not_eq_sym Hne) H1).
    apply (OSMWay_get_frame _ _ _ _ j f Hm).
    rewrite repeat_length.
    destruct (Z.lt_total j index) as [H | [H | H]]; [left | contradiction | right].
    + exact (slot_in OSMWay.sizeof j index (conj Hj H)).
    + exact (slot_in OSMWay.sizeof index j (conj Hi H)).
Qed.

(** ** The node accessors *)

Lemma peek_all (b : block) : peek b 0 (length b) = b.
Proof. unfold peek. cbn [skipn]. apply firstn_all. Qed.

Lemma poke_all (b bytes : block) :
  length bytes = length b -> poke b 0 bytes = bytes.
Proof.
  intros H. unfold poke. cbn [firstn app Nat.add].
  rewrite H, skipn_all. apply app_nil_r.
Qed.

Lemma array_slot_in size count s index :
  array_of size count s -> 0 <= index < count ->
  (slot size index + size <= length s)%nat.
Proof. intros [_ ->] H. apply slot_in, H. Qed.

Lemma array_slot_out size count s index :
  array_of size count s -> count <= index ->
  (length s <= slot size index)%nat.
Proof. intros [H0 ->] H. apply slot_out. lia. Qed.

Lemma osmwaynode_set_node_in s index n :
  (slot OSMWayNode.sizeof index + OSMWayNode.sizeof <= length s)%nat ->
  is_node n ->
  osmwaynode_set_node s index n
  = Ret (poke s (slot OSMWayNode.sizeof index + OSMWayNode.node_off) n).
Proof.
  intros Hin Hn. unfold osmwaynode_set_node, memcpy.
  rewrite <- Hn, load_in, peek_all by lia. cbn [bind].
  apply store_in. rewrite Hn. unfold OSMWayNode.sizeof, OSMNode.sizeof,
    OSMWayNode.node_off in *. lia.
Qed.

Lemma osmwaynode_set_node_inv s index n s' :
  osmwaynode_set_node s index n = Ret s' ->
  exists bytes,
    length bytes = OSMNode.sizeof
    /\ store s (slot OSMWayNode.sizeof index + OSMWayNode.node_off) bytes = Ret s'.
Proof.
  unfold osmwaynode_set_node, memcpy, load.
  destruct (in_block n 0 OSMNode.sizeof) eqn:E; [|discriminate].
  cbn [bind]. intros H. eexists. split; [|exact H].
  apply length_peek. apply Nat.leb_le in E. exact E.
Qed.

Lemma osmwaynode_get_node_in s index dst :
  (slot OSMWayNode.sizeof index + OSMWayNode.sizeof <= length s)%nat ->
  is_node dst ->
  osmwaynode_get_node s index dst
  = Ret (peek s (slot OSMWayNode.sizeof index + OSMWayNode.node_off) OSMNode.sizeof).
Proof.
  intros Hin Hd. unfold osmwaynode_get_node, memcpy.
  assert (slot OSMWayNode.sizeof index + OSMWayNode.node_off + OSMNode.sizeof
          <= length s)%nat as Hin'
    by (unfold OSMWayNode.sizeof, OSMNode.sizeof, OSMWayNode.node_off in *; lia).
  rewrite load_in by exact Hin'. cbn [bind].
  rewrite store_in by (rewrite length_peek by exact Hin'; rewrite Hd; cbn; lia).
  f_equal. apply poke_all. rewrite length_peek by exact Hin'. symmetry. exact Hd.
Qed.

(** C6: on a Way-shape-node array [s] of [count] records, for a valid index
    and every Node value [n], [osmwaynode_set_node] followed by
    [osmwaynode_get_node] at the same index gives back [n], byte for byte,
    whatever the caller's destination held before. *)
Theorem set_node_get_node s count index n dst :
  array_of OSMWayNode.sizeof count s -> 0 <= index < count ->
  is_node n -> is_node dst ->
  exists s',
    osmwaynode_set_node s index n = Ret s'
    /\ osmwaynode_get_node s' index dst = Ret n.
Proof.
  intros Hs Hi Hn Hd. pose proof (array_slot_in _ _ _ _ Hs Hi) as Hin.
  rewrite (osmwaynode_set_node_in _ _ _ Hin Hn).
  eexists. split; [reflexivity|].
  assert (slot OSMWayNode.sizeof index + OSMWayNode.node_off + length n
          <= length s)%nat as Hin'
    by (rewrite Hn; unfold OSMWayNode.sizeof, OSMNode.sizeof,
          OSMWayNode.node_off in *; lia).
  rewrite osmwaynode_get_node_in
    by (rewrite ?length_poke by exact Hin'; assumption).
  apply f_equal. apply peek_poke_same_n; [exact Hn | rewrite <- Hn; exact Hin'].
Qed.

Lemma set_node_get_node_witness :
  exists s',
    osmwaynode_set_node (zeros 112) 1 (repeat Byte.x2a 48) = Ret s'
    /\ osmwaynode_get_node s' 1 (zeros 48) = Ret (repeat Byte.x2a 48).
Proof.
  apply (set_node_get_node (zeros 112) 2 1 (repeat Byte.x2a 48) (zeros 48)).
  - split; [lia | reflexivity].
  - lia.
  - reflexivity.
  - reflexivity.
Defined.

(** C9: [osmwaynode_set_node] at a valid index writes the embedded node of
    that record and nothing else: every byte outside it, the [way_index] and
    [way_shape_node_index] of the record, and every member of every other
    record are as before. *)
Theorem set_node_frame s count index n s' :
  array_of OSMWayNode.sizeof count s -> 0 <= index < count ->
  osmwaynode_set_node s index n = Ret s' ->
  length s' = length s
  /\ (forall off m,
        (off + m <= slot OSMWayNode.sizeof index + OSMWayNode.node_off
         \/ slot OSMWayNode.sizeof index + OSMWayNode.node_off + OSMNode.sizeof <= off)%nat ->
        load s' off m = load s off m)
  /\ OSMWayNode.get s' index OSMWayNode.way_index
      = OSMWayNode.get s index OSMWayNode.way_index
  /\ OSMWayNode.get s' index OSMWayNode.way_shape_node_index
      = OSMWayNode.get s index OSMWayNode.way_shape_node_index
  /\ (forall j f, 0 <= j -> j <> index ->
        OSMWayNode.get s' j f = OSMWayNode.get s j f).
Proof.
  intros Hs Hi H.
  apply osmwaynode_set_node_inv in H as (bytes & Hlen & H).
  split; [apply (store_length _ _ _ _ H)|]. split; [|split; [|split]].
  - intros off m Hd. apply (load_store_frame _ _ _ _ _ _ H). rewrite Hlen. lia.
  - apply (load_member_frame _ _ _ _ _ _ H). right. rewrite Hlen.
    unfold OSMWayNode.node_off, OSMNode.sizeof. cbn [OSMWayNode.layout f_off]. lia.
  - apply (load_member_frame _ _ _ _ _ _ H). right. rewrite Hlen.
    unfold OSMWayNode.node_off, OSMNode.sizeof. cbn [OSMWayNode.layout f_off]. lia.
  - intros j f Hj Hne. apply (OSMWayNode_get_frame _ _ _ _ _ _ H). rewrite Hlen.
    destruct (Z.lt_total j index) as [Hlt | [Heq | Hgt]]; [left | contradiction | right].
    + pose proof (slot_in OSMWayNode.sizeof j index (conj Hj Hlt)) as Hle.
      unfold slot in *. lia.
    + pose proof (slot_in OSMWayNode.sizeof index j (conj (proj1 Hi) Hgt)) as Hle.
      unfold slot, OSMWayNode.node_off, OSMWayNode.sizeof, OSMNode.sizeof in *. lia.
Qed.

Lemma set_node_frame_witness :
  length (repeat Byte.x2a 48 ++ zeros 64) = length (zeros 112)
  /\ OSMWayNode.get (repeat Byte.x2a 48 ++ zeros 64) 0 OSMWayNode.way_index
     = OSMWayNode.get (zeros 112) 0 OSMWayNode.way_index.
Proof.
  destruct (set_node_frame (zeros 112) 2 0 (repeat Byte.x2a 48)
              (repeat Byte.x2a 48 ++ zeros 64)) as (Hl & _ & Hw & _).
  - split; [lia | reflexivity].
  - lia.
  - reflexivity.
  - split; assumption.
Defined.

(** ** Indices outside the array *)

Lemma osmwaynode_set_node_out s index n :
  (length s <= slot OSMWayNode.sizeof index)%nat ->
  osmwaynode_set_node s index n = Undef.
Proof.
  intros H. unfold osmwaynode_set_node, memcpy, load.
  destruct (in_block n 0 OSMNode.sizeof) eqn:E; [|reflexivity].
  cbn [bind]. apply store_out. rewrite length_peek by (apply Nat.leb_le, E).
  unfold OSMNode.sizeof. lia.
Qed.

Lemma osmwaynode_get_node_out s index dst :
  (length s <= slot OSMWayNode.sizeof index)%nat ->
  osmwaynode_get_node s index dst = Undef.
Proof.
  intros H. unfold osmwaynode_get_node, memcpy.
  rewrite load_out by (unfold OSMNode.sizeof; lia). reflexivity.
Qed.

Lemma osmway_set_to_valhalla_out s index osmid name_index nodecount :
  (length s <= slot OSMWay.sizeof index)%nat ->
  osmway_set_to_valhalla s index osmid name_index nodecount = Undef.
Proof.
  intros H. unfold osmway_set_to_valhalla.
  rewrite memset_out by (unfold OSMWay.sizeof at 2; lia). reflexivity.
Qed.

Lemma osmwaynode_set_to_valhalla_out callee s index wi wsni osmid lng7 lat7 inter :
  (length s <= slot OSMWayNode.sizeof index)%nat ->
  osmwaynode_set_to_valhalla callee s index wi wsni osmid lng7 lat7 inter = Undef.
Proof.
  intros H. unfold osmwaynode_set_to_valhalla.
  rewrite memset_out by (unfold OSMWayNode.sizeof at 2; lia). reflexivity.
Qed.

(** With the index inside the array the function zeroes the record, stores
    the two indices and calls [osmnode_set_to_valhalla] on the embedded
    node. *)
Lemma osmwaynode_set_to_valhalla_in callee s index wi wsni osmid lng7 lat7 inter :
  0 <= index ->
  (slot OSMWayNode.sizeof index + OSMWayNode.sizeof <= length s)%nat ->
  exists s2,
    osmwaynode_set_to_valhalla callee s index wi wsni osmid lng7 lat7 inter
    = callee s2 (slot OSMWayNode.sizeof index + OSMWayNode.node_off)%nat
        0 osmid lng7 lat7 inter
    /\ length s2 = length s
    /\ OSMWayNode.get s2 index OSMWayNode.way_index = Ret (wi mod 2 ^ 32)
    /\ OSMWayNode.get s2 index OSMWayNode.way_shape_node_index = Ret (wsni mod 2 ^ 32)
    /\ (forall m, OSMWayNode.get s2 index (OSMWayNode.node m) = Ret 0).
Proof.
  intros Hi Hin. unfold osmwaynode_set_to_valhalla.
  destruct (memset_in s (slot OSMWayNode.sizeof index) 0 OSMWayNode.sizeof Hin)
    as (s0 & Hm & Hl0).
  rewrite Hm. cbn [bind]. rewrite <- Hl0 in Hin.
  destruct (OSMWayNode_set_in s0 index OSMWayNode.way_index wi Hin)
    as (s1 & H1 & Hl1).
  rewrite H1. cbn [bind]. rewrite <- Hl1 in Hin.
  destruct (OSMWayNode_set_in s1 index OSMWayNode.way_shape_node_index wsni Hin)
    as (s2 & H2 & Hl2).
  rewrite H2. cbn [bind].
  exists s2. split; [reflexivity|]. split; [congruence|]. split; [|split].
  - rewrite (OSMWayNode_get_set_other _ _ OSMWayNode.way_shape_node_index _ _
               OSMWayNode.way_index ltac:(discriminate) H2).
    rewrite (OSMWayNode_get_set_same _ _ _ _ _ H1). reflexivity.
  - rewrite (OSMWayNode_get_set_same _ _ _ _ _ H2). reflexivity.
  - intros m.
    rewrite (OSMWayNode_get_set_other _ _ OSMWayNode.way_shape_node_index _ _
               (OSMWayNode.node m) ltac:(discriminate) H2).
    rewrite (OSMWayNode_get_set_other _ _ OSMWayNode.way_index _ _
               (OSMWayNode.node m) ltac:(discriminate) H1).
    apply (OSMWayNode_get_zeros _ _ _ _ _ _ Hm); lia.
Qed.

(** C7, as the code has it: no accessor takes the count of its array, so
    none compares the index with it.  On an array of [count] records an index
    below [count] makes [osmwaynode_set_node], [osmwaynode_get_node] and the
    two default-populating setters run inside the array; an index of [count]
    or more makes each of them touch memory outside the array, which is
    undefined behaviour: no bounds error is returned. *)
Theorem accessors_do_not_check_bounds :
  (forall s count index n dst,
      array_of OSMWayNode.sizeof count s -> is_node n -> is_node dst ->
      (0 <= index < count ->
       (exists s', osmwaynode_set_node s index n = Ret s')
       /\ (exists v, osmwaynode_get_node s index dst = Ret v))
      /\ (count <= index ->
          osmwaynode_set_node s index n = Undef
          /\ osmwaynode_get_node s index dst = Undef))
  /\ (forall s count index osmid name_index nodecount,
         array_of OSMWay.sizeof count s ->
         (0 <= index < count ->
          exists s', osmway_set_to_valhalla s index osmid name_index nodecount = Ret s')
         /\ (count <= index ->
             osmway_set_to_valhalla s index osmid name_index nodecount = Undef))
  /\ (forall callee s count index wi wsni osmid lng7 lat7 inter,
         array_of OSMWayNode.sizeof count s ->
         (0 <= index < count ->
          exists s2,
            length s2 = length s
            /\ osmwaynode_set_to_valhalla callee s index wi wsni osmid lng7 lat7 inter
               = callee s2 (slot OSMWayNode.sizeof index + OSMWayNode.node_off)%nat
                   0 osmid lng7 lat7 inter)
         /\ (count <= index ->
             osmwaynode_set_to_valhalla callee s index wi wsni osmid lng7 lat7 inter
             = Undef)).
Proof.
  split; [|split].
  - intros s count index n dst Hs Hn Hd. split.
    + intros Hi. pose proof (array_slot_in _ _ _ _ Hs Hi) as Hin. split.
      * eexists. apply (osmwaynode_set_node_in _ _ _ Hin Hn).
      * eexists. apply (osmwaynode_get_node_in _ _ _ Hin Hd).
    + intros Hi. pose proof (array_slot_out _ _ _ _ Hs Hi) as Hout. split.
      * apply osmwaynode_set_node_out, Hout.
      * apply osmwaynode_get_node_out, Hout.
  - intros s count index osmid name_index nodecount Hs. split.
    + intros Hi. pose proof (array_slot_in _ _ _ _ Hs Hi) as Hin.
      destruct (osmway_set_to_valhalla_spec s index osmid name_index nodecount
                  (proj1 Hi) Hin) as (s' & H & _).
      exists s'. exact H.
    + intros Hi. apply osmway_set_to_valhalla_out, (array_slot_out _ _ _ _ Hs Hi).
  - intros callee s count index wi wsni osmid lng7 lat7 inter Hs. split.
    + intros Hi. pose proof (array_slot_in _ _ _ _ Hs Hi) as Hin.
      destruct (osmwaynode_set_to_valhalla_in callee s index wi wsni osmid lng7
                  lat7 inter (proj1 Hi) Hin) as (s2 & H & Hl & _).
      exists s2. split; assumption.
    + intros Hi.
      apply osmwaynode_set_to_valhalla_out, (array_slot_out _ _ _ _ Hs Hi).
Qed.

Lemma accessors_do_not_check_bounds_witness :
  ((exists s', osmwaynode_set_node (zeros 56) 0 (repeat Byte.x2a 48) = Ret s')
   /\ (exists v, osmwaynode_get_node (zeros 56) 0 (zeros 48) = Ret v))
  /\ osmwaynode_set_node (zeros 56) 1 (repeat Byte.x2a 48) = Undef
  /\ osmwaynode_get_node (zeros 56) 1 (zeros 48) = Undef.
Proof.
  destruct (proj1 accessors_do_not_check_bounds (zeros 56) 1 0
              (repeat Byte.x2a 48) (zeros 48)) as [Hin _];
    [split; [lia | reflexivity] | reflexivity | reflexivity |].
  destruct (proj1 accessors_do_not_check_bounds (zeros 56) 1 1
              (repeat Byte.x2a 48) (zeros 48)) as [_ Hout];
    [split; [lia | reflexivity] | reflexivity | reflexivity |].
  split; [apply Hin; lia | apply Hout; lia].
Defined.

(** C7 as stated fails.  On an array of one record, index 1 gives no bounds
    error: the call is undefined.  And when the record is followed by other
    bytes of the same block, the accessors read and overwrite them. *)
Lemma index_out_of_bounds_counterexample :
  osmwaynode_get_node (zeros 56) 1 (zeros 48) = Undef
  /\ osmwaynode_set_node (zeros 56) 1 (repeat Byte.x2a 48) = Undef
  /\ osmwaynode_get_node (zeros 56 ++ repeat Byte.xff 56) 1 (zeros 48)
     = Ret (repeat Byte.xff 48)
  /\ osmwaynode_set_node (zeros 56 ++ repeat Byte.xff 56) 1 (repeat Byte.x2a 48)
     = Ret (zeros 56 ++ repeat Byte.x2a 48 ++ repeat Byte.xff 8).
Proof. repeat split; reflexivity. Qed.

(** ** Default population of a Way *)

(** C4, with the conversions the code makes: on a valid record,
    [osmway_set_to_valhalla] leaves the id equal to [osmid], the name index
    equal to [name_index] modulo 2^32 and the node count equal to [nodecount]
    modulo 2^16 (so equal to the arguments when they fit their members),
    surface 3, drive-on-right 1, road class 7, use 25, both pedestrian flags
    1, speed 25, and every other member, has-user-tags and the speed limit
    among them, zero. *)
Theorem way_default_population s count index osmid name_index nodecount :
  array_of OSMWay.sizeof count s -> 0 <= index < count ->
  0 <= osmid < 2 ^ 64 ->
  exists s',
    osmway_set_to_valhalla s index osmid name_index nodecount = Ret s'
    /\ OSMWay.get s' index OSMWay.osmwayid_ = Ret osmid
    /\ (0 <= name_index < 2 ^ 32 ->
        OSMWay.get s' index OSMWay.name_index_ = Ret name_index)
    /\ (0 <= nodecount < 2 ^ 16 ->
        OSMWay.get s' index OSMWay.nodecount_ = Ret nodecount)
    /\ (forall f,
          OSMWay.get s' index f = Ret (valhalla_way osmid name_index nodecount f)).
Proof.
  intros Hs Hi Hid. pose proof (array_slot_in _ _ _ _ Hs Hi) as Hin.
  destruct (osmway_set_to_valhalla_spec s index osmid name_index nodecount
              (proj1 Hi) Hin) as (s' & H & _ & Hf & _).
  exists s'. split; [exact H|]. repeat split.
  - rewrite Hf. cbn [valhalla_way]. rewrite Z.mod_small by exact Hid. reflexivity.
  - intros Hn. rewrite Hf. cbn [valhalla_way]. rewrite Z.mod_small by exact Hn.
    reflexivity.
  - intros Hn. rewrite Hf. cbn [valhalla_way]. rewrite Z.mod_small by exact Hn.
    reflexivity.
  - exact Hf.
Qed.

Lemma way_default_population_witness :
  exists s',
    osmway_set_to_valhalla (zeros 320) 0 42 7 3 = Ret s'
    /\ OSMWay.get s' 0 OSMWay.osmwayid_ = Ret 42
    /\ (0 <= 7 < 2 ^ 32 -> OSMWay.get s' 0 OSMWay.name_index_ = Ret 7)
    /\ (0 <= 3 < 2 ^ 16 -> OSMWay.get s' 0 OSMWay.nodecount_ = Ret 3)
    /\ (forall f, OSMWay.get s' 0 f = Ret (valhalla_way 42 7 3 f)).
Proof.
  apply (way_default_population (zeros 320) 1 0 42 7 3).
  - split; [lia | reflexivity].
  - lia.
  - lia.
Defined.

(** C4 as stated fails: a node count of 65536 is stored as 0, and a name
    index of 2^32 + 7 as 7. *)
Lemma way_default_population_counterexample :
  (s' <- osmway_set_to_valhalla (zeros 320) 0 42 7 65536 ;;
   OSMWay.get s' 0 OSMWay.nodecount_) = Ret 0
  /\ (s' <- osmway_set_to_valhalla (zeros 320) 0 42 (2 ^ 32 + 7) 3 ;;
      OSMWay.get s' 0 OSMWay.name_index_) = Ret 7.
Proof. split; vm_compute; reflexivity. Qed.

(** C10: [osmway_set_to_valhalla] takes the name index and the node count as
    64-bit values and stores them in a 32-bit and a 16-bit member: whatever
    the arguments, the call succeeds on a valid record and leaves
    [name_index_] equal to the argument modulo 2^32 and [nodecount_] equal to
    the argument modulo 2^16. *)
Theorem way_arguments_are_narrowed s count index osmid name_index nodecount :
  array_of OSMWay.sizeof count s -> 0 <= index < count ->
  exists s',
    osmway_set_to_valhalla s index osmid name_index nodecount = Ret s'
    /\ OSMWay.get s' index OSMWay.name_index_ = Ret (name_index mod 2 ^ 32)
    /\ OSMWay.get s' index OSMWay.nodecount_ = Ret (nodecount mod 2 ^ 16).
Proof.
  intros Hs Hi. pose proof (array_slot_in _ _ _ _ Hs Hi) as Hin.
  destruct (osmway_set_to_valhalla_spec s index osmid name_index nodecount
              (proj1 Hi) Hin) as (s' & H & _ & Hf & _).
  exists s'. split; [exact H|]. split; apply Hf.
Qed.

Lemma way_arguments_are_narrowed_witness :
  exists s',
    osmway_set_to_valhalla (zeros 640) 1 42 (2 ^ 32 + 7) 65539 = Ret s'
    /\ OSMWay.get s' 1 OSMWay.name_index_ = Ret ((2 ^ 32 + 7) mod 2 ^ 32)
    /\ OSMWay.get s' 1 OSMWay.nodecount_ = Ret (65539 mod 2 ^ 16).
Proof.
  apply (way_arguments_are_narrowed (zeros 640) 2 1 42 (2 ^ 32 + 7) 65539).
  - split; [lia | reflexivity].
  - lia.
Defined.

(** ** Allocation and clearing *)

Lemma malloc_in h n :
  n <= avail h ->
  exists b, malloc h n = Some b /\ length b = Z.to_nat n.
Proof.
  intros H. unfold malloc. apply Z.leb_le in H. rewrite H.
  eexists. split; [reflexivity|]. rewrite length_map. apply length_seq.
Qed.

Lemma malloc_out h n : avail h < n -> malloc h n = None.
Proof. intros H. unfold malloc. apply Z.leb_gt in H. rewrite H. reflexivity. Qed.

Lemma memset_whole b n :
  length b = n -> memset b 0 0 n = Ret (zeros n).
Proof.
  intros H. unfold memset. rewrite store_in by (rewrite repeat_length; lia).
  f_equal. change (byte.of_Z 0) with Byte.x00. fold (zeros n).
  apply poke_all. unfold zeros. rewrite repeat_length. symmetry. exact H.
Qed.

Lemma memset_prefix b n :
  (n <= length b)%nat -> memset b 0 0 n = Ret (zeros n ++ skipn n b).
Proof.
  intros H. unfold memset. rewrite store_in by (rewrite repeat_length; lia).
  unfold poke. rewrite repeat_length. reflexivity.
Qed.

Lemma array_new_in size h count :
  size_t (Z.of_nat size * count) <= avail h ->
  array_new size h count = Ret (zeros (Z.to_nat (size_t (Z.of_nat size * count)))).
Proof.
  intros H. unfold array_new.
  destruct (malloc_in h _ H) as (b & -> & Hlen). apply memset_whole, Hlen.
Qed.

Lemma array_new_out size h count :
  avail h < size_t (Z.of_nat size * count) -> array_new size h count = Undef.
Proof. intros H. unfold array_new. rewrite malloc_out by exact H. reflexivity. Qed.

Lemma size_t_small z : 0 <= z < 2 ^ 64 -> size_t z = z.
Proof. apply Z.mod_small. Qed.

Lemma length_zeros k : length (zeros k) = k.
Proof. apply repeat_length. Qed.

Section ZeroInit.

Variable field : Type.
Variable layout : field -> member.
Variable size : nat.

Hypothesis layout_ok : forall f, member_ok (layout f) = true.
Hypothesis layout_fits : forall f, (f_off (layout f) + f_unit (layout f) <= size)%nat.

Let get (s : block) (index : Z) (f : field) : outcome Z :=
  load_member s (slot size index) (layout f).

Lemma zeros_zero_filled k : zero_filled get size (zeros k).
Proof.
  split; [rewrite length_zeros; reflexivity|].
  intros index f Hi Hin. rewrite length_zeros in Hin.
  apply (get_zeros field layout size layout_ok layout_fits (zeros k) 0 k);
    [apply memset_whole, length_zeros | lia | lia].
Qed.

Lemma array_new_zero h count :
  size_t (Z.of_nat size * count) <= avail h ->
  exists a,
    array_new size h count = Ret a
    /\ zero_filled get size a
    /\ (0 <= count -> Z.of_nat size * count < 2 ^ 64 -> array_of size count a).
Proof.
  intros H. rewrite (array_new_in _ _ _ H). eexists. split; [reflexivity|].
  split; [apply zeros_zero_filled|].
  intros H0 Hw. split; [exact H0|].
  rewrite length_zeros, size_t_small by (split; [apply Z.mul_nonneg_nonneg|]; lia).
  rewrite Z2Nat.inj_mul, Nat2Z.id by lia. apply Nat.mul_comm.
Qed.

Lemma array_clear_zero s n count :
  array_of size n s -> Z.of_nat (length s) < 2 ^ 64 -> 0 <= count <= n ->
  exists s',
    array_clear size s count = Ret s'
    /\ length s' = length s
    /\ (forall index f, 0 <= index < count -> get s' index f = Ret 0)
    /\ (count = n -> zero_filled get size s').
Proof.
  intros [Hn Hlen] Hobj Hc. unfold array_clear.
  assert (Z.to_nat count * size <= Z.to_nat n * size)%nat as Hle
    by (apply Nat.mul_le_mono_r; lia).
  assert (Z.to_nat (size_t (Z.of_nat size * count)) = (Z.to_nat count * size)%nat) as E.
  { rewrite size_t_small.
    - rewrite Z2Nat.inj_mul, Nat2Z.id by lia. apply Nat.mul_comm.
    - split; [apply Z.mul_nonneg_nonneg; lia|].
      apply Z.le_lt_trans with (Z.of_nat (length s)); [|exact Hobj].
      rewrite Hlen, Nat2Z.inj_mul, Z2Nat.id by lia. nia. }
  rewrite E.
  destruct (memset_in s 0 0 (Z.to_nat count * size)) as (s' & Hm & Hl); [lia|].
  exists s'. split; [exact Hm|]. split; [exact Hl|]. split.
  - intros index f Hi.
    apply (get_zeros field layout size layout_ok layout_fits _ _ _ _ _ _ Hm);
      [lia|]. apply (slot_in size index count Hi).
  - intros ->. rewrite memset_whole in Hm by exact Hlen.
    injection Hm as <-. apply zeros_zero_filled.
Qed.

End ZeroInit.

(** C5: an array fresh from [osmway_new], [osmwaynode_new] or [osmnode_new],
    and an array that [osmway_clear], [osmwaynode_clear] or [osmnode_clear]
    has cleared, holds zero in every byte and in every member, bit-fields
    included, of every record.  [new] succeeds when the allocator has the
    bytes and then gives an array of exactly [count] records when
    [sizeof * count] does not wrap; [clear] succeeds when [count] is at most
    the length of the array. *)
Theorem zero_initialization :
  (forall h count,
      size_t (Z.of_nat OSMWay.sizeof * count) <= avail h ->
      exists a, osmway_new h count = Ret a
        /\ zero_filled OSMWay.get OSMWay.sizeof a
        /\ (0 <= count -> Z.of_nat OSMWay.sizeof * count < 2 ^ 64 ->
            array_of OSMWay.sizeof count a))
  /\ (forall h count,
      size_t (Z.of_nat OSMWayNode.sizeof * count) <= avail h ->
      exists a, osmwaynode_new h count = Ret a
        /\ zero_filled OSMWayNode.get OSMWayNode.sizeof a
        /\ (0 <= count -> Z.of_nat OSMWayNode.sizeof * count < 2 ^ 64 ->
            array_of OSMWayNode.sizeof count a))
  /\ (forall h count,
      size_t (Z.of_nat OSMNode.sizeof * count) <= avail h ->
      exists a, osmnode_new h count = Ret a
        /\ zero_filled OSMNode.get OSMNode.sizeof a
        /\ (0 <= count -> Z.of_nat OSMNode.sizeof * count < 2 ^ 64 ->
            array_of OSMNode.sizeof count a))
  /\ (forall s n count,
      array_of OSMWay.sizeof n s -> Z.of_nat (length s) < 2 ^ 64 ->
      0 <= count <= n ->
      exists s', osmway_clear s count = Ret s'
        /\ length s' = length s
        /\ (forall index f, 0 <= index < count -> OSMWay.get s' index f = Ret 0)
        /\ (count = n -> zero_filled OSMWay.get OSMWay.sizeof s'))
  /\ (forall s n count,
      array_of OSMWayNode.sizeof n s -> Z.of_nat (length s) < 2 ^ 64 ->
      0 <= count <= n ->
      exists s', osmwaynode_clear s count = Ret s'
        /\ length s' = length s
        /\ (forall index f, 0 <= index < count -> OSMWayNode.get s' index f = Ret 0)
        /\ (count = n -> zero_filled OSMWayNode.get OSMWayNode.sizeof s'))
  /\ (forall s n count,
      array_of OSMNode.sizeof n s -> Z.of_nat (length s) < 2 ^ 64 ->
      0 <= count <= n ->
      exists s', osmnode_clear s count = Ret s'
        /\ length s' = length s
        /\ (forall index f, 0 <= index < count -> OSMNode.get s' index f = Ret 0)
        /\ (count = n -> zero_filled OSMNode.get OSMNode.sizeof s')).
Proof.
  repeat split.
  - apply (array_new_zero _ _ _ OSMWay_layout_ok OSMWay_layout_fits).
  - apply (array_new_zero _ _ _ OSMWayNode_layout_ok OSMWayNode_layout_fits).
  - apply (array_new_zero _ _ _ OSMNode_layout_ok OSMNode_layout_fits).
  - apply (array_clear_zero _ _ _ OSMWay_layout_ok OSMWay_layout_fits).
  - apply (array_clear_zero _ _ _ OSMWayNode_layout_ok OSMWayNode_layout_fits).
  - apply (array_clear_zero _ _ _ OSMNode_layout_ok OSMNode_layout_fits).
Qed.

Lemma zero_initialization_witness :
  exists a,
    osmwaynode_new (mkHeap 4096 (fun _ => Byte.xff)) 3 = Ret a
    /\ zero_filled OSMWayNode.get OSMWayNode.sizeof a
    /\ (0 <= 3 -> Z.of_nat OSMWayNode.sizeof * 3 < 2 ^ 64 ->
        array_of OSMWayNode.sizeof 3 a).
Proof.
  apply (proj1 (proj2 zero_initialization) (mkHeap 4096 (fun _ => Byte.xff)) 3).
  vm_compute. discriminate.
Defined.

(** ** Export and import *)

Section BulkIO.

Variable size : nat.
Hypothesis size_pos : (0 < size)%nat.

Lemma contents_with_file fs path data left :
  contents (with_file fs path data left) path = Some data.
Proof. cbn [contents with_file]. rewrite String.eqb_refl. reflexivity. Qed.

Lemma contents_with_file_other fs path data left p :
  p <> path -> contents (with_file fs path data left) p = contents fs p.
Proof.
  intros H. cbn [contents with_file].
  apply String.eqb_neq in H. rewrite H. reflexivity.
Qed.

(** What [export] does when the stream opens: the file holds the bytes of
    the first [count] records that the device had room for, and the result
    is 1 in every case. *)
Lemma array_export_in fs s count path :
  refused fs path = false ->
  0 <= count < 2 ^ 64 ->
  Z.of_nat size * count <= Z.of_nat (length s) ->
  exists fs',
    array_export size fs s count path = Ret (fs', 1)
    /\ contents fs' path
       = Some (firstn (room fs) (firstn (Z.to_nat (Z.of_nat size * count)) s))
    /\ refused fs' = refused fs
    /\ (forall p, p <> path -> contents fs' p = contents fs p).
Proof.
  intros Hr Hc Hs. unfold array_export, fopen_wb. rewrite Hr.
  unfold fwrite. rewrite (size_t_small _ Hc).
  apply Z.leb_le in Hs. rewrite Hs. cbn [bind fst room with_file].
  eexists. split; [reflexivity|]. split; [|split].
  - rewrite contents_with_file. cbn [contents with_file].
    rewrite String.eqb_refl. reflexivity.
  - reflexivity.
  - intros p Hp. rewrite !contents_with_file_other by exact Hp. reflexivity.
Qed.

Lemma array_export_refused fs s count path :
  refused fs path = true -> array_export size fs s count path = Undef.
Proof. intros H. unfold array_export, fopen_wb. rewrite H. reflexivity. Qed.

(** What [import] does when the stream opens and the buffer is allocated:
    the count is the quotient of the file's length by the record size,
    rounded down, and the buffer holds that many records from the start of
    the file. *)
Lemma array_import_in h fs path d :
  refused fs path = false -> contents fs path = Some d ->
  Z.of_nat (length d) <= LONG_MAX ->
  Z.of_nat size * (Z.of_nat (length d) / Z.of_nat size) <= avail h ->
  array_import size h fs path
  = Ret (firstn (Z.to_nat (Z.of_nat size * (Z.of_nat (length d) / Z.of_nat size))) d,
         Z.of_nat (length d) / Z.of_nat size).
Proof.
  intros Hr Hc Hl Ha. unfold array_import, fopen_rb. rewrite Hr, Hc.
  unfold ftell, fseek_end, fseek_set. cbn [f_pos f_data].
  apply Z.leb_le in Hl as Hl'. rewrite Hl'.
  assert (0 < Z.of_nat size) as Hsz by lia.
  pose proof (Z.mul_div_le (Z.of_nat (length d)) (Z.of_nat size) Hsz) as Hq.
  pose proof (Z.div_pos (Z.of_nat (length d)) (Z.of_nat size)) as Hq0.
  unfold LONG_MAX in Hl.
  rewrite (size_t_small (Z.of_nat (length d))) by lia.
  rewrite size_t_small by nia.
  destruct (malloc_in h _ Ha) as (buffer & -> & Hbuf).
  unfold fread. cbn [f_pos f_data].
  rewrite Nat.sub_0_r, Nat.min_l by lia.
  rewrite store_in by (rewrite length_peek; lia).
  cbn [bind fst]. f_equal. f_equal.
  rewrite poke_all by (rewrite length_peek; lia). reflexivity.
Qed.

Lemma array_import_refused h fs path :
  refused fs path = true -> array_import size h fs path = Undef.
Proof. intros H. unfold array_import, fopen_rb. rewrite H. reflexivity. Qed.

Lemma array_import_missing h fs path :
  contents fs path = None -> array_import size h fs path = Undef.
Proof.
  intros H. unfold array_import, fopen_rb. rewrite H.
  destruct (refused fs path); reflexivity.
Qed.

Lemma array_bytes count s :
  array_of size count s -> Z.of_nat size * count = Z.of_nat (length s).
Proof. intros [H0 ->]. rewrite Nat2Z.inj_mul, Z2Nat.id by exact H0. apply Z.mul_comm. Qed.

(** An array that fits the device is written whole. *)
Lemma array_export_whole fs s count path :
  array_of size count s -> count <= INT_MAX ->
  refused fs path = false -> (length s <= room fs)%nat ->
  exists fs',
    array_export size fs s count path = Ret (fs', 1)
    /\ contents fs' path = Some s
    /\ refused fs' = refused fs
    /\ (forall p, p <> path -> contents fs' p = contents fs p).
Proof.
  intros Hs Hc Hr Hroom. pose proof (array_bytes _ _ Hs) as Hb.
  destruct (array_export_in fs s count path Hr) as (fs' & He & Hf & Hrest).
  - destruct Hs as [H0 _]. unfold INT_MAX in Hc. lia.
  - lia.
  - exists fs'. split; [exact He|]. split; [|exact Hrest].
    rewrite Hf, Hb, Nat2Z.id, firstn_all, firstn_all2 by exact Hroom. reflexivity.
Qed.

Lemma array_round_trip h fs s count path :
  array_of size count s -> count <= INT_MAX ->
  Z.of_nat (length s) <= LONG_MAX ->
  refused fs path = false -> (length s <= room fs)%nat ->
  Z.of_nat (length s) <= avail h ->
  exists fs',
    array_export size fs s count path = Ret (fs', 1)
    /\ array_import size h fs' path = Ret (s, count).
Proof.
  intros Hs Hc Hl Hr Hroom Ha. pose proof (array_bytes _ _ Hs) as Hb.
  destruct (array_export_whole fs s count path Hs Hc Hr Hroom)
    as (fs' & He & Hf & Hr' & _).
  exists fs'. split; [exact He|].
  assert (Z.of_nat (length s) / Z.of_nat size = count) as Hq.
  { rewrite <- Hb, Z.mul_comm. apply Z.div_mul. lia. }
  rewrite (array_import_in h fs' path s); rewrite ?Hr', ?Hq, ?Hb; try assumption.
  rewrite Nat2Z.id, firstn_all. reflexivity.
Qed.

End BulkIO.

(** C1, for the paths and devices on which the calls can succeed: when
    [fopen] accepts the path, the device has room for the array, the
    allocator has the bytes and the count fits the [int] parameter of
    export, exporting an array of [count] records and importing the file gives
    back the same bytes and the same count, for each of the three record
    types. *)
Theorem export_import_round_trip h fs s count path :
  count <= INT_MAX -> refused fs path = false ->
  (length s <= room fs)%nat -> Z.of_nat (length s) <= avail h ->
  (array_of OSMWay.sizeof count s ->
   exists fs', osmway_export fs s count path = Ret (fs', 1)
               /\ osmway_import h fs' path = Ret (s, count))
  /\ (array_of OSMWayNode.sizeof count s ->
      exists fs', osmwaynode_export fs s count path = Ret (fs', 1)
                  /\ osmwaynode_import h fs' path = Ret (s, count))
  /\ (array_of OSMNode.sizeof count s ->
      exists fs', osmnode_export fs s count path = Ret (fs', 1)
                  /\ osmnode_import h fs' path = Ret (s, count)).
Proof.
  intros Hc Hr Hroom Ha.
  assert (forall size, (0 < size <= 320)%nat -> array_of size count s ->
                       Z.of_nat (length s) <= LONG_MAX) as Hlong.
  { intros size Hsz Hs. rewrite <- (array_bytes _ _ _ Hs).
    destruct Hs as [H0 _]. unfold INT_MAX in Hc. unfold LONG_MAX. nia. }
  repeat split; intros Hs.
  - apply array_round_trip; try assumption; [cbv; lia|].
    apply (Hlong OSMWay.sizeof); [cbv; lia | exact Hs].
  - apply array_round_trip; try assumption; [cbv; lia|].
    apply (Hlong OSMWayNode.sizeof); [cbv; lia | exact Hs].
  - apply array_round_trip; try assumption; [cbv; lia|].
    apply (Hlong OSMNode.sizeof); [cbv; lia | exact Hs].
Qed.

Lemma export_import_round_trip_witness :
  (exists fs', osmway_export (empty_disk 4096) [] 0 "ways.bin" = Ret (fs', 1)
               /\ osmway_import (heap_of 4096) fs' "ways.bin" = Ret ([], 0))
  /\ (exists fs',
        osmway_export (empty_disk 4096) (repeat Byte.x2a 320) 1 "ways.bin"
        = Ret (fs', 1)
        /\ osmway_import (heap_of 4096) fs' "ways.bin" = Ret (repeat Byte.x2a 320, 1))
  /\ (exists fs',
        osmnode_export (empty_disk (Z.to_nat 1000 * OSMNode.sizeof))
          (repeat Byte.x2a (Z.to_nat 1000 * OSMNode.sizeof)) 1000 "nodes.bin"
        = Ret (fs', 1)
        /\ osmnode_import (heap_of 48000) fs' "nodes.bin"
           = Ret (repeat Byte.x2a (Z.to_nat 1000 * OSMNode.sizeof), 1000)).
Proof.
  split; [|split].
  - apply (export_import_round_trip (heap_of 4096) (empty_disk 4096) [] 0 "ways.bin").
    + vm_compute. discriminate.
    + reflexivity.
    + apply Nat.leb_le. reflexivity.
    + vm_compute. discriminate.
    + split; [lia | reflexivity].
  - apply (export_import_round_trip (heap_of 4096) (empty_disk 4096)
             (repeat Byte.x2a 320) 1 "ways.bin").
    + vm_compute. discriminate.
    + reflexivity.
    + apply Nat.leb_le. reflexivity.
    + vm_compute. discriminate.
    + split; [lia | reflexivity].
  - apply (export_import_round_trip (heap_of 48000)
             (empty_disk (Z.to_nat 1000 * OSMNode.sizeof))
             (repeat Byte.x2a (Z.to_nat 1000 * OSMNode.sizeof)) 1000 "nodes.bin").
    + vm_compute. discriminate.
    + reflexivity.
    + cbn [room empty_disk]. rewrite repeat_length. apply le_n.
    + rewrite repeat_length. unfold OSMNode.sizeof, heap_of. cbn [avail]. lia.
    + split; [lia | apply repeat_length].
Defined.

(** C1 as stated fails.  No array comes back from the empty path, which
    [fopen] refuses: export is undefined on the null stream.  And on a device
    with room for 100 bytes, exporting one Way and importing the file gives
    an array of no record.  And when the allocator has 100 bytes left,
    import of the exported Way is undefined on the null buffer. *)
Lemma export_import_round_trip_counterexample :
  osmway_export (empty_disk 4096) (repeat Byte.x2a 320) 1 EmptyString = Undef
  /\ (r <- osmway_export (empty_disk 100) (repeat Byte.x2a 320) 1 "ways.bin" ;;
      osmway_import (heap_of 4096) (fst r) "ways.bin") = Ret ([], 0)
  /\ (r <- osmway_export (empty_disk 4096) (repeat Byte.x2a 320) 1 "ways.bin" ;;
      osmway_import (heap_of 100) (fst r) "ways.bin") = Undef.
Proof. repeat split; vm_compute; reflexivity. Qed.

(** C3, for the paths and devices on which the call can succeed: when
    [fopen] accepts the path, the device has room for the array and the
    count fits the [int] parameter, the file export leaves at the path holds
    exactly the bytes of the array, [count * sizeof] of them, with nothing
    before, between or after the records; no other file changes. *)
Theorem export_file_is_the_array fs s count path :
  count <= INT_MAX -> refused fs path = false -> (length s <= room fs)%nat ->
  (array_of OSMWay.sizeof count s ->
   exists fs', osmway_export fs s count path = Ret (fs', 1)
     /\ contents fs' path = Some s
     /\ Z.of_nat (length s) = count * Z.of_nat OSMWay.sizeof
     /\ (forall p, p <> path -> contents fs' p = contents fs p))
  /\ (array_of OSMWayNode.sizeof count s ->
      exists fs', osmwaynode_export fs s count path = Ret (fs', 1)
        /\ contents fs' path = Some s
        /\ Z.of_nat (length s) = count * Z.of_nat OSMWayNode.sizeof
        /\ (forall p, p <> path -> contents fs' p = contents fs p))
  /\ (array_of OSMNode.sizeof count s ->
      exists fs', osmnode_export fs s count path = Ret (fs', 1)
        /\ contents fs' path = Some s
        /\ Z.of_nat (length s) = count * Z.of_nat OSMNode.sizeof
        /\ (forall p, p <> path -> contents fs' p = contents fs p)).
Proof.
  intros Hc Hr Hroom.
  assert (forall size, (0 < size)%nat -> array_of size count s ->
            exists fs', array_export size fs s count path = Ret (fs', 1)
              /\ contents fs' path = Some s
              /\ Z.of_nat (length s) = count * Z.of_nat size
              /\ (forall p, p <> path -> contents fs' p = contents fs p)) as Hall.
  { intros size Hsz Hs. pose proof (array_bytes _ _ _ Hs) as Hb.
    destruct (array_export_whole size Hsz fs s count path Hs Hc Hr Hroom)
      as (fs' & He & Hf & _ & Hrest).
    exists fs'. split; [exact He|]. split; [exact Hf|]. split; [lia | exact Hrest]. }
  repeat split; intros Hs; apply Hall; try exact Hs; cbv; lia.
Qed.

Lemma export_file_is_the_array_witness :
  exists fs',
    osmwaynode_export (empty_disk 4096) (repeat Byte.x2a 112) 2 "nodes.bin"
    = Ret (fs', 1)
    /\ contents fs' "nodes.bin" = Some (repeat Byte.x2a 112)
    /\ Z.of_nat (length (repeat Byte.x2a 112)) = 2 * Z.of_nat OSMWayNode.sizeof
    /\ (forall p, p <> "nodes.bin"%string ->
                  contents fs' p = contents (empty_disk 4096) p).
Proof.
  apply (export_file_is_the_array (empty_disk 4096) (repeat Byte.x2a 112) 2 "nodes.bin").
  - vm_compute. discriminate.
  - reflexivity.
  - apply Nat.leb_le. reflexivity.
  - split; [lia | reflexivity].
Defined.

(** C3 as stated fails.  On the empty path export leaves no file: it is
    undefined on the null stream.  On a device with room for 10 bytes the file
    of one Way-shape-node holds 10 bytes, not 56, and export returns 1. *)
Lemma export_file_is_the_array_counterexample :
  osmwaynode_export (empty_disk 4096) (repeat Byte.x2a 56) 1 EmptyString = Undef
  /\ (r <- osmwaynode_export (empty_disk 10) (repeat Byte.x2a 56) 1 "nodes.bin" ;;
      Ret (contents (fst r) "nodes.bin", snd r))
     = Ret (Some (repeat Byte.x2a 10), 1).
Proof. split; vm_compute; reflexivity. Qed.

(** ** Missing error checks *)

(** C2 on the code: a file of 321 bytes is imported as one Way, the last byte
    dropped and no error raised; a file of 55 bytes as no Way-shape-node at
    all; a path that does not open makes import undefined. *)
Lemma import_truncates_silently :
  osmway_import (heap_of 4096) (disk_with "ways.bin" (repeat Byte.x2a 321)) "ways.bin"
  = Ret (repeat Byte.x2a 320, 1)
  /\ osmwaynode_import (heap_of 4096) (disk_with "nodes.bin" (repeat Byte.x2a 55))
       "nodes.bin" = Ret ([], 0)
  /\ osmway_import (heap_of 4096) (empty_disk 0) "ways.bin" = Undef.
Proof. repeat split; vm_compute; reflexivity. Qed.

(** C8 on the code: on a device with room for 100 bytes export of two Ways
    leaves a file of 100 bytes and returns 1; on a path that does not open it
    returns nothing: the call is undefined. *)
Lemma export_returns_1_on_short_write :
  (r <- osmway_export (empty_disk 100) (repeat Byte.x2a 640) 2 "ways.bin" ;;
   Ret (option_map (@length byte) (contents (fst r) "ways.bin"), snd r))
  = Ret (Some 100%nat, 1)
  /\ osmway_export (empty_disk 100) (repeat Byte.x2a 640) 2 EmptyString = Undef.
Proof. split; vm_compute; reflexivity. Qed.

(** * Further properties of the code *)

(** ** Bytes of a block, one by one *)

Lemma nth_error_poke s off bytes k :
  (off + length bytes <= length s)%nat ->
  nth_error (poke s off bytes) k
  = if (k <? off)%nat then nth_error s k
    else if (k <? off + length bytes)%nat then nth_error bytes (k - off)
         else nth_error s k.
Proof.
  intros H. unfold poke.
  rewrite nth_error_app, length_firstn, nth_error_firstn.
  replace (Nat.min off (length s)) with off by lia.
  destruct (Nat.ltb_spec k off) as [Hk | Hk]; [reflexivity|].
  rewrite nth_error_app.
  destruct (Nat.ltb_spec (k - off) (length bytes)) as [Hb | Hb];
    destruct (Nat.ltb_spec k (off + length bytes)) as [Hb' | Hb']; try lia.
  - reflexivity.
  - rewrite nth_error_skipn. f_equal. lia.
Qed.

Lemma nth_error_peek s off n k :
  nth_error (peek s off n) k = if (k <? n)%nat then nth_error s (off + k) else None.
Proof.
  unfold peek. rewrite nth_error_firstn.
  destruct (k <? n)%nat; [apply nth_error_skipn | reflexivity].
Qed.

Lemma nth_error_past (s : block) k : (length s <= k)%nat -> nth_error s k = None.
Proof. apply nth_error_None. Qed.

(** Splits on every comparison the byte lemmas leave, then closes by
    arithmetic on the positions. *)
Ltac by_bytes :=
  repeat match goal with
    | |- context [(?a <? ?b)%nat] => destruct (Nat.ltb_spec a b)
    end;
  try reflexivity; try lia;
  try (rewrite !nth_error_past by lia; reflexivity);
  try (f_equal; lia).

Lemma peek_poke_inside s off bytes off' n :
  (off + length bytes <= length s)%nat -> (off' + n <= length bytes)%nat ->
  peek (poke s off bytes) (off + off') n = peek bytes off' n.
Proof.
  intros H H'. apply nth_error_ext. intros k.
  rewrite !nth_error_peek, nth_error_poke by exact H. by_bytes.
Qed.

Lemma poke_poke_inside s off b1 off' b2 :
  (off + length b1 <= length s)%nat -> (off' + length b2 <= length b1)%nat ->
  poke (poke s off b1) (off + off') b2 = poke s off (poke b1 off' b2).
Proof.
  intros H H'. apply nth_error_ext. intros k.
  rewrite (nth_error_poke (poke s off b1)) by (rewrite length_poke; lia).
  rewrite (nth_error_poke s off (poke b1 off' b2)) by (rewrite length_poke; lia).
  rewrite (nth_error_poke s off b1) by exact H.
  rewrite (nth_error_poke b1 off' b2) by exact H'.
  rewrite (length_poke b1) by exact H'. by_bytes.
Qed.

Lemma poke_poke_same s off b1 b2 :
  (off + length b1 <= length s)%nat -> length b2 = length b1 ->
  poke (poke s off b1) off b2 = poke s off b2.
Proof.
  intros H H'. apply nth_error_ext. intros k.
  rewrite (nth_error_poke (poke s off b1)) by (rewrite length_poke; lia).
  rewrite (nth_error_poke s off b2) by lia.
  rewrite (nth_error_poke s off b1) by exact H. rewrite H'. by_bytes.
Qed.

Lemma poke_poke_comm s o1 b1 o2 b2 :
  (o1 + length b1 <= length s)%nat -> (o2 + length b2 <= length s)%nat ->
  (o1 + length b1 <= o2 \/ o2 + length b2 <= o1)%nat ->
  poke (poke s o1 b1) o2 b2 = poke (poke s o2 b2) o1 b1.
Proof.
  intros H1 H2 Hd. apply nth_error_ext. intros k.
  rewrite (nth_error_poke (poke s o1 b1)) by (rewrite length_poke; lia).
  rewrite (nth_error_poke (poke s o2 b2)) by (rewrite length_poke; lia).
  rewrite (nth_error_poke s o1 b1) by exact H1.
  rewrite (nth_error_poke s o2 b2) by exact H2.
  destruct Hd; by_bytes.
Qed.

Lemma poke_peek s off n :
  (off + n <= length s)%nat -> poke s off (peek s off n) = s.
Proof.
  intros H. apply nth_error_ext. intros k.
  rewrite nth_error_poke by (rewrite length_peek; lia).
  rewrite length_peek, nth_error_peek by exact H. by_bytes.
Qed.

Lemma length_put_member r l v :
  (f_off l + f_unit l <= length r)%nat -> length (put_member r l v) = length r.
Proof.
  intros H. unfold put_member. apply length_poke. rewrite length_le_split. exact H.
Qed.

(** An assignment to a member of the record [r] placed at [base] changes
    [r] and nothing around it. *)
Lemma store_member_poke s base r l v :
  (base + length r <= length s)%nat -> (f_off l + f_unit l <= length r)%nat ->
  store_member (poke s base r) base l v = Ret (poke s base (put_member r l v)).
Proof.
  intros H Hl. unfold store_member.
  rewrite load_in by (rewrite length_poke; lia). cbn [bind].
  rewrite store_in by (rewrite length_le_split, length_poke; lia).
  f_equal. rewrite peek_poke_inside by assumption.
  apply poke_poke_inside; [exact H | rewrite length_le_split; exact Hl].
Qed.

Lemma memset_poke s off n :
  (off + n <= length s)%nat -> memset s off 0 n = Ret (poke s off (zeros n)).
Proof.
  intros H. unfold memset. rewrite store_in by (rewrite repeat_length; lia).
  reflexivity.
Qed.

(** ** [osmway_set_to_valhalla], byte by byte *)

(** One assignment of the function body on the record [r] in place. *)
Ltac assign_in_place :=
  match goal with
  | |- context [OSMWay.set (poke ?s ?base ?r) ?i ?f ?v] =>
      unfold OSMWay.set at 1;
      rewrite (store_member_poke s base r (OSMWay.layout f) v)
        by (rewrite ?length_put_member, ?length_zeros;
            first [assumption | apply Nat.leb_le; reflexivity]);
      cbn [bind]
  end.

(** The call writes one record, and what it writes depends on the three
    values alone. *)
Lemma osmway_set_to_valhalla_local osmid name_index nodecount :
  exists R,
    length R = OSMWay.sizeof
    /\ forall s index,
        (slot OSMWay.sizeof index + OSMWay.sizeof <= length s)%nat ->
        osmway_set_to_valhalla s index osmid name_index nodecount
        = Ret (poke s (slot OSMWay.sizeof index) R).
Proof.
  eexists. split; cycle 1.
  - intros s index Hin. unfold osmway_set_to_valhalla.
    rewrite memset_poke by exact Hin. cbn [bind].
    do 10 assign_in_place.
    unfold OSMWay.set.
    rewrite store_member_poke
      by (rewrite ?length_put_member, ?length_zeros;
          first [assumption | apply Nat.leb_le; reflexivity]).
    reflexivity.
  - rewrite !length_put_member;
      rewrite ?length_put_member, ?length_zeros;
      first [reflexivity | apply Nat.leb_le; reflexivity].
Qed.

(** X1: besides the record at [index], [osmway_set_to_valhalla] leaves every
    byte of the array as it was. *)
Theorem way_population_touches_one_record
  s count index osmid name_index nodecount s' :
  array_of OSMWay.sizeof count s -> 0 <= index < count ->
  osmway_set_to_valhalla s index osmid name_index nodecount = Ret s' ->
  length s' = length s
  /\ forall off m,
      (off + m <= slot OSMWay.sizeof index
       \/ slot OSMWay.sizeof index + OSMWay.sizeof <= off)%nat ->
      load s' off m = load s off m.
Proof.
  intros Hs Hi H. pose proof (array_slot_in _ _ _ _ Hs Hi) as Hin.
  destruct (osmway_set_to_valhalla_local osmid name_index nodecount)
    as (R & HR & Hrun).
  rewrite (Hrun s index Hin) in H. injection H as <-.
  assert (store s (slot OSMWay.sizeof index) R
          = Ret (poke s (slot OSMWay.sizeof index) R)) as Hst
    by (apply store_in; rewrite HR; exact Hin).
  split.
  - apply (store_length _ _ _ _ Hst).
  - intros off m Hd. apply (load_store_frame _ _ _ _ _ _ Hst). rewrite HR. exact Hd.
Qed.

Lemma way_population_touches_one_record_witness :
  exists s',
    osmway_set_to_valhalla (repeat Byte.xff 640) 1 42 7 3 = Ret s'
    /\ length s' = 640%nat /\ load s' 0 320 = Ret (repeat Byte.xff 320).
Proof.
  destruct (osmway_set_to_valhalla_spec (repeat Byte.xff 640) 1 42 7 3)
    as (s' & H & _); [lia | apply Nat.leb_le; reflexivity |].
  exists s'. split; [exact H|].
  destruct (way_population_touches_one_record (repeat Byte.xff 640) 2 1 42 7 3 s')
    as [Hl Hf].
  - split; [lia | reflexivity].
  - lia.
  - exact H.
  - split; [exact Hl|]. rewrite Hf; [reflexivity | left; apply Nat.leb_le; reflexivity].
Defined.

(** X2: the record [osmway_set_to_valhalla] leaves is the same, byte for byte,
    padding included, whatever array it is written in, whatever index, and
    whatever the record held before. *)
Theorem way_population_forgets_the_past
  s cs i t ct j osmid name_index nodecount s' t' :
  array_of OSMWay.sizeof cs s -> 0 <= i < cs ->
  array_of OSMWay.sizeof ct t -> 0 <= j < ct ->
  osmway_set_to_valhalla s i osmid name_index nodecount = Ret s' ->
  osmway_set_to_valhalla t j osmid name_index nodecount = Ret t' ->
  peek s' (slot OSMWay.sizeof i) OSMWay.sizeof
  = peek t' (slot OSMWay.sizeof j) OSMWay.sizeof.
Proof.
  intros Hs Hi Ht Hj H H'.
  pose proof (array_slot_in _ _ _ _ Hs Hi) as Hin.
  pose proof (array_slot_in _ _ _ _ Ht Hj) as Hin'.
  destruct (osmway_set_to_valhalla_local osmid name_index nodecount)
    as (R & HR & Hrun).
  rewrite (Hrun s i Hin) in H. rewrite (Hrun t j Hin') in H'.
  injection H as <-. injection H' as <-.
  rewrite !peek_poke_same_n by assumption. reflexivity.
Qed.

Lemma way_population_forgets_the_past_witness :
  exists s' t',
    osmway_set_to_valhalla (repeat Byte.xff 640) 1 42 7 3 = Ret s'
    /\ osmway_set_to_valhalla (zeros 320) 0 42 7 3 = Ret t'
    /\ peek s' (slot OSMWay.sizeof 1) OSMWay.sizeof
       = peek t' (slot OSMWay.sizeof 0) OSMWay.sizeof.
Proof.
  destruct (osmway_set_to_valhalla_spec (repeat Byte.xff 640) 1 42 7 3)
    as (s' & H & _); [lia | apply Nat.leb_le; reflexivity |].
  destruct (osmway_set_to_valhalla_spec (zeros 320) 0 42 7 3)
    as (t' & H' & _); [lia | apply Nat.leb_le; reflexivity |].
  exists s', t'. split; [exact H|]. split; [exact H'|].
  apply (way_population_forgets_the_past (repeat Byte.xff 640) 2 1 (zeros 320) 1 0
           42 7 3 s' t'); try assumption; try lia; split; try lia; reflexivity.
Defined.

(** X3: populating a record twice is populating it once with the values of the
    second call: nothing of the first call is left. *)
Theorem way_population_last_call_wins s count index a1 b1 c1 a2 b2 c2 :
  array_of OSMWay.sizeof count s -> 0 <= index < count ->
  (s1 <- osmway_set_to_valhalla s index a1 b1 c1 ;;
   osmway_set_to_valhalla s1 index a2 b2 c2)
  = osmway_set_to_valhalla s index a2 b2 c2.
Proof.
  intros Hs Hi. pose proof (array_slot_in _ _ _ _ Hs Hi) as Hin.
  destruct (osmway_set_to_valhalla_local a1 b1 c1) as (R1 & HR1 & Hrun1).
  destruct (osmway_set_to_valhalla_local a2 b2 c2) as (R2 & HR2 & Hrun2).
  rewrite (Hrun1 s index Hin). cbn [bind].
  rewrite Hrun2 by (rewrite length_poke; rewrite ?HR1; exact Hin).
  rewrite (Hrun2 s index Hin). f_equal.
  apply poke_poke_same; [rewrite HR1; exact Hin | congruence].
Qed.

Lemma way_population_last_call_wins_witness :
  (s1 <- osmway_set_to_valhalla (repeat Byte.xff 640) 1 1 2 65535 ;;
   osmway_set_to_valhalla s1 1 42 7 3)
  = osmway_set_to_valhalla (repeat Byte.xff 640) 1 42 7 3.
Proof.
  apply (way_population_last_call_wins (repeat Byte.xff 640) 2 1 1 2 65535 42 7 3).
  - split; [lia | reflexivity].
  - lia.
Defined.

(** ** [osmwaynode_set_to_valhalla] up to its call *)

(** X5: before it calls [osmnode_set_to_valhalla] on the embedded node,
    [osmwaynode_set_to_valhalla] has zeroed the record, stored the way index
    and the shape index converted to 32 bits, and left every byte outside the
    record as it was: that is the array the node setter receives. *)
Theorem waynode_population_before_the_node
  callee s count index wi wsni osmid lng7 lat7 inter :
  array_of OSMWayNode.sizeof count s -> 0 <= index < count ->
  exists s2,
    osmwaynode_set_to_valhalla callee s index wi wsni osmid lng7 lat7 inter
    = callee s2 (slot OSMWayNode.sizeof index + OSMWayNode.node_off)%nat
        0 osmid lng7 lat7 inter
    /\ length s2 = length s
    /\ OSMWayNode.get s2 index OSMWayNode.way_index = Ret (wi mod 2 ^ 32)
    /\ OSMWayNode.get s2 index OSMWayNode.way_shape_node_index
       = Ret (wsni mod 2 ^ 32)
    /\ (forall m, OSMWayNode.get s2 index (OSMWayNode.node m) = Ret 0)
    /\ (forall off m,
          (off + m <= slot OSMWayNode.sizeof index
           \/ slot OSMWayNode.sizeof index + OSMWayNode.sizeof <= off)%nat ->
          load s2 off m = load s off m).
Proof.
  intros Hs Hi. pose proof (array_slot_in _ _ _ _ Hs Hi) as Hin.
  pose proof (memset_poke s _ _ Hin) as Hm.
  set (r1 := put_member (zeros OSMWayNode.sizeof)
               (OSMWayNode.layout OSMWayNode.way_index) wi).
  set (r2 := put_member r1
               (OSMWayNode.layout OSMWayNode.way_shape_node_index) wsni).
  assert (length r1 = OSMWayNode.sizeof) as Hr1
    by (apply length_put_member, Nat.leb_le; reflexivity).
  assert (length r2 = OSMWayNode.sizeof) as Hr2
    by (unfold r2; rewrite length_put_member;
        [exact Hr1 | rewrite Hr1; apply Nat.leb_le; reflexivity]).
  assert (OSMWayNode.set (poke s (slot OSMWayNode.sizeof index)
                            (zeros OSMWayNode.sizeof)) index
            OSMWayNode.way_index wi
          = Ret (poke s (slot OSMWayNode.sizeof index) r1)) as H1
    by (apply store_member_poke;
        [rewrite length_zeros; exact Hin | apply Nat.leb_le; reflexivity]).
  assert (OSMWayNode.set (poke s (slot OSMWayNode.sizeof index) r1) index
            OSMWayNode.way_shape_node_index wsni
          = Ret (poke s (slot OSMWayNode.sizeof index) r2)) as H2
    by (apply store_member_poke;
        [rewrite Hr1; exact Hin | rewrite Hr1; apply Nat.leb_le; reflexivity]).
  assert (store s (slot OSMWayNode.sizeof index) r2
          = Ret (poke s (slot OSMWayNode.sizeof index) r2)) as Hst
    by (apply store_in; rewrite Hr2; exact Hin).
  exists (poke s (slot OSMWayNode.sizeof index) r2).
  split; [|split; [|split; [|split; [|split]]]].
  - unfold osmwaynode_set_to_valhalla. rewrite Hm. cbn [bind].
    rewrite H1. cbn [bind]. rewrite H2. reflexivity.
  - apply (store_length _ _ _ _ Hst).
  - rewrite (OSMWayNode_get_set_other _ _ OSMWayNode.way_shape_node_index _ _
               OSMWayNode.way_index ltac:(discriminate) H2).
    rewrite (OSMWayNode_get_set_same _ _ _ _ _ H1). reflexivity.
  - rewrite (OSMWayNode_get_set_same _ _ _ _ _ H2). reflexivity.
  - intros m.
    rewrite (OSMWayNode_get_set_other _ _ OSMWayNode.way_shape_node_index _ _
               (OSMWayNode.node m) ltac:(discriminate) H2).
    rewrite (OSMWayNode_get_set_other _ _ OSMWayNode.way_index _ _
               (OSMWayNode.node m) ltac:(discriminate) H1).
    apply (OSMWayNode_get_zeros _ _ _ _ _ _ Hm); lia.
  - intros off m Hd. apply (load_store_frame _ _ _ _ _ _ Hst). rewrite Hr2. exact Hd.
Qed.

Lemma waynode_population_before_the_node_witness :
  exists s2,
    osmwaynode_set_to_valhalla (fun b _ _ _ _ _ _ => Ret b) (repeat Byte.xff 112)
      1 (2 ^ 32 + 5) 9 42 1 2 1
    = Ret s2
    /\ length s2 = length (repeat Byte.xff 112)
    /\ OSMWayNode.get s2 1 OSMWayNode.way_index = Ret ((2 ^ 32 + 5) mod 2 ^ 32)
    /\ OSMWayNode.get s2 1 OSMWayNode.way_shape_node_index = Ret (9 mod 2 ^ 32)
    /\ (forall m, OSMWayNode.get s2 1 (OSMWayNode.node m) = Ret 0)
    /\ (forall off m,
          (off + m <= slot OSMWayNode.sizeof 1
           \/ slot OSMWayNode.sizeof 1 + OSMWayNode.sizeof <= off)%nat ->
          load s2 off m = load (repeat Byte.xff 112) off m).
Proof.
  apply (waynode_population_before_the_node (fun b _ _ _ _ _ _ => Ret b)
           (repeat Byte.xff 112) 2 1 (2 ^ 32 + 5) 9 42 1 2 1).
  - split; [lia | reflexivity].
  - lia.
Defined.

(** ** Clearing a prefix, and allocation at the limits *)

Section ClearAndNew.

Variable field : Type.
Variable layout : field -> member.
Variable size : nat.

Hypothesis layout_ok : forall f, member_ok (layout f) = true.
Hypothesis layout_fits : forall f, (f_off (layout f) + f_unit (layout f) <= size)%nat.

Let get (s : block) (index : Z) (f : field) : outcome Z :=
  load_member s (slot size index) (layout f).

Lemma array_clear_frame s n count s' :
  array_of size n s -> Z.of_nat (length s) < 2 ^ 64 -> 0 <= count <= n ->
  array_clear size s count = Ret s' ->
  (forall off m, (slot size count <= off)%nat -> load s' off m = load s off m)
  /\ (forall index f, count <= index -> get s' index f = get s index f).
Proof.
  intros [Hn Hlen] Hobj Hc H. unfold array_clear in H.
  assert (Z.to_nat (size_t (Z.of_nat size * count)) = slot size count) as E.
  { unfold slot. rewrite size_t_small.
    - rewrite Z2Nat.inj_mul, Nat2Z.id by lia. apply Nat.mul_comm.
    - split; [apply Z.mul_nonneg_nonneg; lia|].
      apply Z.le_lt_trans with (Z.of_nat (length s)); [|exact Hobj].
      rewrite Hlen, Nat2Z.inj_mul, Z2Nat.id by lia. nia. }
  rewrite E in H. unfold memset in H. split.
  - intros off m Ho. apply (load_store_frame _ _ _ _ _ _ H).
    rewrite repeat_length. lia.
  - intros index f Hi. apply (get_frame field layout size layout_fits _ _ _ _ _ _ H).
    right. rewrite repeat_length. cbn [Nat.add].
    apply (slot_out size index count). lia.
Qed.

Lemma array_new_wraps h count :
  (0 < size)%nat -> Z.of_nat size <= 2 ^ 64 ->
  0 <= count -> 2 ^ 64 <= Z.of_nat size * count ->
  size_t (Z.of_nat size * count) <= avail h ->
  exists a,
    array_new size h count = Ret a
    /\ Z.of_nat (length a) < Z.of_nat size * count
    /\ forall f, get a (count - 1) f = Undef.
Proof.
  intros Hsz Hsz' Hc Hw Ha. rewrite (array_new_in _ _ _ Ha).
  eexists. split; [reflexivity|].
  rewrite length_zeros.
  pose proof (Z.mod_pos_bound (Z.of_nat size * count) (2 ^ 64) eq_refl) as Hb.
  fold (size_t (Z.of_nat size * count)) in Hb.
  assert (size_t (Z.of_nat size * count) + 2 ^ 64 <= Z.of_nat size * count) as Hk.
  { unfold size_t in *.
    pose proof (Z.div_mod (Z.of_nat size * count) (2 ^ 64) ltac:(lia)) as Hdm.
    assert (1 <= Z.of_nat size * count / 2 ^ 64)
      by (apply Z.div_le_lower_bound; lia).
    nia. }
  split; [rewrite Z2Nat.id by lia; lia|].
  intros f. apply load_member_out. unfold slot.
  assert (Z.of_nat (Z.to_nat (count - 1) * size) = Z.of_nat size * count - Z.of_nat size)
    by (rewrite Nat2Z.inj_mul, Z2Nat.id by nia; ring).
  destruct (member_ok_inv _ (layout_ok f)) as (Hs0 & Hw0 & Hu0).
  rewrite length_zeros.
  apply Nat2Z.inj_lt. rewrite !Nat2Z.inj_add, H, Z2Nat.id by lia. lia.
Qed.

End ClearAndNew.

(** X6: [osmway_clear] and [osmwaynode_clear] with a count below the length of
    the array zero the first [count] records only: every byte and every
    member of the records from [count] on are as before. *)
Theorem clear_keeps_the_rest :
  (forall s n count s',
      array_of OSMWay.sizeof n s -> Z.of_nat (length s) < 2 ^ 64 ->
      0 <= count <= n -> osmway_clear s count = Ret s' ->
      (forall off m, (slot OSMWay.sizeof count <= off)%nat ->
                     load s' off m = load s off m)
      /\ (forall index f, count <= index ->
                          OSMWay.get s' index f = OSMWay.get s index f))
  /\ (forall s n count s',
      array_of OSMWayNode.sizeof n s -> Z.of_nat (length s) < 2 ^ 64 ->
      0 <= count <= n -> osmwaynode_clear s count = Ret s' ->
      (forall off m, (slot OSMWayNode.sizeof count <= off)%nat ->
                     load s' off m = load s off m)
      /\ (forall index f, count <= index ->
                          OSMWayNode.get s' index f = OSMWayNode.get s index f)).
Proof.
  split.
  - apply (array_clear_frame _ _ _ OSMWay_layout_fits).
  - apply (array_clear_frame _ _ _ OSMWayNode_layout_fits).
Qed.

Lemma clear_keeps_the_rest_witness :
  osmway_clear (repeat Byte.xff 640) 1 = Ret (zeros 320 ++ repeat Byte.xff 320)
  /\ forall f, OSMWay.get (zeros 320 ++ repeat Byte.xff 320) 1 f
               = OSMWay.get (repeat Byte.xff 640) 1 f.
Proof.
  assert (osmway_clear (repeat Byte.xff 640) 1
          = Ret (zeros 320 ++ repeat Byte.xff 320)) as H by reflexivity.
  split; [exact H|]. intros f.
  destruct (proj1 clear_keeps_the_rest (repeat Byte.xff 640) 2 1
              (zeros 320 ++ repeat Byte.xff 320)) as [_ Hf].
  - split; [lia | reflexivity].
  - vm_compute. reflexivity.
  - lia.
  - exact H.
  - apply Hf. lia.
Defined.

(** X7: [osmway_new] and [osmwaynode_new] multiply [sizeof] by [count] in
    [size_t]: when the product reaches 2^64 it wraps, the call still
    succeeds, and the block it returns is too short for [count] records, so
    that its last record lies outside the block. *)
Theorem new_wraps_for_huge_counts h count :
  0 <= count ->
  (2 ^ 64 <= Z.of_nat OSMWay.sizeof * count ->
   size_t (Z.of_nat OSMWay.sizeof * count) <= avail h ->
   exists a,
     osmway_new h count = Ret a
     /\ Z.of_nat (length a) < Z.of_nat OSMWay.sizeof * count
     /\ forall f, OSMWay.get a (count - 1) f = Undef)
  /\ (2 ^ 64 <= Z.of_nat OSMWayNode.sizeof * count ->
      size_t (Z.of_nat OSMWayNode.sizeof * count) <= avail h ->
      exists a,
        osmwaynode_new h count = Ret a
        /\ Z.of_nat (length a) < Z.of_nat OSMWayNode.sizeof * count
        /\ forall f, OSMWayNode.get a (count - 1) f = Undef).
Proof.
  intros Hc. split; intros Hw Ha.
  - apply (array_new_wraps _ _ _ OSMWay_layout_ok);
      try assumption; cbv; [lia | discriminate].
  - apply (array_new_wraps _ _ _ OSMWayNode_layout_ok);
      try assumption; cbv; [lia | discriminate].
Qed.

Lemma new_wraps_for_huge_counts_witness :
  exists a,
    osmway_new (heap_of 320) (2 ^ 58 + 1) = Ret a
    /\ Z.of_nat (length a) < Z.of_nat OSMWay.sizeof * (2 ^ 58 + 1)
    /\ forall f, OSMWay.get a (2 ^ 58 + 1 - 1) f = Undef.
Proof.
  apply (proj1 (new_wraps_for_huge_counts (heap_of 320) (2 ^ 58 + 1)
                  ltac:(vm_compute; discriminate))).
  - vm_compute. discriminate.
  - vm_compute. discriminate.
Defined.

(** X8: [osmway_new] and [osmwaynode_new] pass what [malloc] returns to [memset]
    unchecked: when the allocator cannot supply the bytes the call is
    undefined; it does not return a null array. *)
Theorem new_without_memory_is_undefined h count :
  (avail h < size_t (Z.of_nat OSMWay.sizeof * count) -> osmway_new h count = Undef)
  /\ (avail h < size_t (Z.of_nat OSMWayNode.sizeof * count) ->
      osmwaynode_new h count = Undef).
Proof. split; apply array_new_out. Qed.

Lemma new_without_memory_is_undefined_witness :
  osmway_new (heap_of 639) 2 = Undef /\ osmwaynode_new (heap_of 0) 1 = Undef.
Proof.
  split.
  - apply (proj1 (new_without_memory_is_undefined (heap_of 639) 2)).
    vm_compute. reflexivity.
  - apply (proj2 (new_without_memory_is_undefined (heap_of 0) 1)).
    vm_compute. reflexivity.
Defined.

(** ** Export and import, in general *)

Section BulkLaws.

Variable size : nat.
Hypothesis size_pos : (0 < size)%nat.

Lemma whole_records (d : list byte) :
  let q := Z.of_nat (length d) / Z.of_nat size in
  0 <= q
  /\ Z.of_nat size * q <= Z.of_nat (length d)
  /\ Z.to_nat (Z.of_nat size * q) = slot size q
  /\ (Z.of_nat (length d) mod Z.of_nat size = 0 ->
      Z.of_nat size * q = Z.of_nat (length d)).
Proof.
  intros q. assert (0 < Z.of_nat size) as Hsz by lia.
  assert (0 <= q) as Hq by (apply Z.div_pos; lia).
  split; [exact Hq|]. split; [apply Z.mul_div_le, Hsz|]. split.
  - unfold slot. rewrite Z2Nat.inj_mul, Nat2Z.id by lia. apply Nat.mul_comm.
  - intros Hm. pose proof (Z.div_mod (Z.of_nat (length d)) (Z.of_nat size)) as Hdm.
    unfold q. lia.
Qed.

Lemma array_import_whole_records h fs path d :
  refused fs path = false -> contents fs path = Some d ->
  Z.of_nat (length d) <= LONG_MAX ->
  Z.of_nat size * (Z.of_nat (length d) / Z.of_nat size) <= avail h ->
  let count := Z.of_nat (length d) / Z.of_nat size in
  let buffer := firstn (slot size count) d in
  array_import size h fs path = Ret (buffer, count)
  /\ array_of size count buffer
  /\ (Z.of_nat (length d) mod Z.of_nat size = 0 -> buffer = d).
Proof.
  intros Hr Hc Hl Ha count buffer.
  destruct (whole_records d) as (Hq & Hle & Hslot & Hexact).
  fold count in Hq, Hle, Hslot, Hexact.
  split; [|split].
  - rewrite (array_import_in size size_pos h fs path d Hr Hc Hl Ha).
    fold count. rewrite Hslot. reflexivity.
  - split; [exact Hq|]. unfold buffer. rewrite length_firstn.
    unfold slot in *. lia.
  - intros Hm. unfold buffer. apply firstn_all2.
    specialize (Hexact Hm). lia.
Qed.

Lemma array_import_no_memory h fs path d :
  refused fs path = false -> contents fs path = Some d ->
  Z.of_nat (length d) <= LONG_MAX ->
  avail h < Z.of_nat size * (Z.of_nat (length d) / Z.of_nat size) ->
  array_import size h fs path = Undef.
Proof.
  intros Hr Hc Hl Ha.
  destruct (whole_records d) as (Hq & Hle & _).
  unfold array_import, fopen_rb. rewrite Hr, Hc.
  unfold ftell, fseek_end, fseek_set. cbn [f_pos f_data].
  apply Z.leb_le in Hl as Hl'. rewrite Hl'. unfold LONG_MAX in Hl.
  rewrite (size_t_small (Z.of_nat (length d))) by lia.
  rewrite size_t_small by lia.
  rewrite malloc_out by exact Ha. reflexivity.
Qed.

Lemma array_export_prefix fs s n count path :
  array_of size n s -> 0 <= count <= n -> count <= INT_MAX ->
  refused fs path = false ->
  exists fs',
    array_export size fs s count path = Ret (fs', 1)
    /\ contents fs' path
       = Some (firstn (Nat.min (room fs) (slot size count)) s)
    /\ (forall p, p <> path -> contents fs' p = contents fs p).
Proof.
  intros [Hn Hlen] Hc Hi Hr. unfold INT_MAX in Hi.
  assert (Z.of_nat size * count <= Z.of_nat (length s)) as Hle.
  { rewrite Hlen, Nat2Z.inj_mul, Z2Nat.id by lia. nia. }
  destruct (array_export_in size fs s count path Hr) as (fs' & He & Hf & _ & Hrest);
    [lia | exact Hle |].
  exists fs'. split; [exact He|]. split; [|exact Hrest].
  rewrite Hf, firstn_firstn. do 2 f_equal.
  unfold slot. rewrite Z2Nat.inj_mul, Nat2Z.id by lia.
  rewrite (Nat.mul_comm size). reflexivity.
Qed.

Lemma array_export_negative fs s count path :
  INT_MIN <= count < 0 -> Z.of_nat (length s) <= LONG_MAX ->
  refused fs path = false ->
  array_export size fs s count path = Undef.
Proof.
  intros Hc Hl Hr. unfold INT_MIN, LONG_MAX in *.
  unfold array_export, fopen_wb. rewrite Hr. unfold fwrite.
  assert (size_t count = 2 ^ 64 + count) as ->.
  { unfold size_t. symmetry. apply (Z.mod_unique_pos _ _ (-1)); lia. }
  cbn [contents with_file room].
  destruct (Z.leb_spec (Z.of_nat size * (2 ^ 64 + count)) (Z.of_nat (length s)));
    [nia | reflexivity].
Qed.

Lemma array_import_export h fs p q d :
  refused fs p = false -> contents fs p = Some d ->
  Z.of_nat (length d) <= LONG_MAX ->
  Z.of_nat (length d) / Z.of_nat size <= INT_MAX ->
  Z.of_nat size * (Z.of_nat (length d) / Z.of_nat size) <= avail h ->
  refused fs q = false -> (length d <= room fs)%nat ->
  exists fs',
    (r <- array_import size h fs p ;; array_export size fs (fst r) (snd r) q)
    = Ret (fs', 1)
    /\ contents fs' q
       = Some (firstn (slot size (Z.of_nat (length d) / Z.of_nat size)) d)
    /\ (Z.of_nat (length d) mod Z.of_nat size = 0 -> contents fs' q = Some d).
Proof.
  intros Hr Hc Hl Hi Ha Hrq Hroom.
  destruct (array_import_whole_records h fs p d Hr Hc Hl Ha) as (Him & Harr & Hex).
  rewrite Him. cbn [bind fst snd].
  destruct (array_export_whole size size_pos fs _ _ q Harr Hi Hrq)
    as (fs' & He & Hf & _).
  { rewrite length_firstn. lia. }
  exists fs'. split; [exact He|]. split; [exact Hf|].
  intros Hm. rewrite Hf, (Hex Hm). reflexivity.
Qed.

End BulkLaws.

Lemma OSMWay_sizeof_pos : (0 < OSMWay.sizeof)%nat.
Proof. apply Nat.ltb_lt. reflexivity. Qed.

Lemma OSMWayNode_sizeof_pos : (0 < OSMWayNode.sizeof)%nat.
Proof. apply Nat.ltb_lt. reflexivity. Qed.

(** X9: [osmway_import] and [osmwaynode_import] take the whole records of the
    file and nothing else: the count is the length of the file divided by
    [sizeof], rounded down; the buffer is an array of exactly that many
    records, the first bytes of the file; the bytes of a last, partial record
    are dropped; when the length is a multiple of [sizeof] the buffer is the
    file. *)
Theorem import_takes_whole_records h fs path d :
  refused fs path = false -> contents fs path = Some d ->
  Z.of_nat (length d) <= LONG_MAX ->
  (Z.of_nat OSMWay.sizeof * (Z.of_nat (length d) / Z.of_nat OSMWay.sizeof)
   <= avail h ->
   let count := Z.of_nat (length d) / Z.of_nat OSMWay.sizeof in
   let buffer := firstn (slot OSMWay.sizeof count) d in
   osmway_import h fs path = Ret (buffer, count)
   /\ array_of OSMWay.sizeof count buffer
   /\ (Z.of_nat (length d) mod Z.of_nat OSMWay.sizeof = 0 -> buffer = d))
  /\ (Z.of_nat OSMWayNode.sizeof * (Z.of_nat (length d) / Z.of_nat OSMWayNode.sizeof)
      <= avail h ->
      let count := Z.of_nat (length d) / Z.of_nat OSMWayNode.sizeof in
      let buffer := firstn (slot OSMWayNode.sizeof count) d in
      osmwaynode_import h fs path = Ret (buffer, count)
      /\ array_of OSMWayNode.sizeof count buffer
      /\ (Z.of_nat (length d) mod Z.of_nat OSMWayNode.sizeof = 0 -> buffer = d)).
Proof.
  intros Hr Hc Hl. split; intros Ha.
  - apply (array_import_whole_records _ OSMWay_sizeof_pos); assumption.
  - apply (array_import_whole_records _ OSMWayNode_sizeof_pos); assumption.
Qed.

Lemma import_takes_whole_records_witness :
  osmway_import (heap_of 4096) (disk_with "ways.bin" (repeat Byte.x2a 700)) "ways.bin"
  = Ret (repeat Byte.x2a 640, 2)
  /\ array_of OSMWay.sizeof 2 (repeat Byte.x2a 640).
Proof.
  destruct (proj1 (import_takes_whole_records (heap_of 4096)
                     (disk_with "ways.bin" (repeat Byte.x2a 700)) "ways.bin"
                     (repeat Byte.x2a 700) eq_refl eq_refl
                     ltac:(vm_compute; discriminate))
              ltac:(vm_compute; discriminate)) as (H1 & H2 & _).
  split; [exact H1 | exact H2].
Defined.

(** X10: [osmway_import] and [osmwaynode_import] have no failure result: on a
    path [fopen] refuses, on a path with no file, and when the allocator
    cannot supply the buffer, the call is undefined. *)
Theorem import_failures_are_undefined h fs path :
  (refused fs path = true ->
   osmway_import h fs path = Undef /\ osmwaynode_import h fs path = Undef)
  /\ (contents fs path = None ->
      osmway_import h fs path = Undef /\ osmwaynode_import h fs path = Undef)
  /\ (forall d,
        refused fs path = false -> contents fs path = Some d ->
        Z.of_nat (length d) <= LONG_MAX ->
        (avail h < Z.of_nat OSMWay.sizeof
                   * (Z.of_nat (length d) / Z.of_nat OSMWay.sizeof) ->
         osmway_import h fs path = Undef)
        /\ (avail h < Z.of_nat OSMWayNode.sizeof
                      * (Z.of_nat (length d) / Z.of_nat OSMWayNode.sizeof) ->
            osmwaynode_import h fs path = Undef)).
Proof.
  split; [|split].
  - intros H. split; apply array_import_refused, H.
  - intros H. split; apply array_import_missing, H.
  - intros d Hr Hc Hl. split; intros Ha.
    + apply (array_import_no_memory _ OSMWay_sizeof_pos h fs path d); assumption.
    + apply (array_import_no_memory _ OSMWayNode_sizeof_pos h fs path d); assumption.
Qed.

Lemma import_failures_are_undefined_witness :
  osmway_import (heap_of 4096) (empty_disk 0) EmptyString = Undef
  /\ osmwaynode_import (heap_of 4096) (empty_disk 0) "nodes.bin" = Undef
  /\ osmway_import (heap_of 319) (disk_with "ways.bin" (repeat Byte.x2a 320))
       "ways.bin" = Undef.
Proof.
  split; [|split].
  - apply (proj1 (import_failures_are_undefined (heap_of 4096) (empty_disk 0)
                    EmptyString)).
    reflexivity.
  - apply (proj1 (proj2 (import_failures_are_undefined (heap_of 4096) (empty_disk 0)
                           "nodes.bin"))).
    reflexivity.
  - apply (proj2 (proj2 (import_failures_are_undefined (heap_of 319)
                           (disk_with "ways.bin" (repeat Byte.x2a 320)) "ways.bin"))
             (repeat Byte.x2a 320)).
    + reflexivity.
    + reflexivity.
    + vm_compute. discriminate.
    + vm_compute. reflexivity.
Defined.

(** X11: when the stream opens, [osmway_export] and [osmwaynode_export] of the
    first [count] records of an array replace the file by as many bytes of
    those records as the device has room for, whatever the file held before,
    leave every other file alone, and return 1, short write or not. *)
Theorem export_writes_what_fits fs s n count path :
  0 <= count <= n -> count <= INT_MAX -> refused fs path = false ->
  (array_of OSMWay.sizeof n s ->
   exists fs',
     osmway_export fs s count path = Ret (fs', 1)
     /\ contents fs' path
        = Some (firstn (Nat.min (room fs) (slot OSMWay.sizeof count)) s)
     /\ (forall p, p <> path -> contents fs' p = contents fs p))
  /\ (array_of OSMWayNode.sizeof n s ->
      exists fs',
        osmwaynode_export fs s count path = Ret (fs', 1)
        /\ contents fs' path
           = Some (firstn (Nat.min (room fs) (slot OSMWayNode.sizeof count)) s)
        /\ (forall p, p <> path -> contents fs' p = contents fs p)).
Proof.
  intros Hc Hi Hr. split; intros Hs.
  - apply (array_export_prefix _ OSMWay_sizeof_pos fs s n count path); assumption.
  - apply (array_export_prefix _ OSMWayNode_sizeof_pos fs s n count path); assumption.
Qed.

Lemma export_writes_what_fits_witness :
  exists fs',
    osmwaynode_export
      (with_file (empty_disk 100) "nodes.bin" (repeat Byte.xff 500) 100)
      (repeat Byte.x2a 168) 2 "nodes.bin" = Ret (fs', 1)
    /\ contents fs' "nodes.bin" = Some (repeat Byte.x2a 100).
Proof.
  destruct (proj2 (export_writes_what_fits
                     (with_file (empty_disk 100) "nodes.bin" (repeat Byte.xff 500) 100)
                     (repeat Byte.x2a 168) 3 2 "nodes.bin"
                     ltac:(lia) ltac:(vm_compute; discriminate) eq_refl))
    as (fs' & He & Hf & _).
  - split; [lia | reflexivity].
  - exists fs'. split; [exact He | exact Hf].
Defined.

(** X12: a negative count is not an empty export: converted to [size_t] it asks
    [fwrite] for more records than any array holds, and the call is
    undefined. *)
Theorem export_negative_count_is_undefined fs s count path :
  INT_MIN <= count < 0 -> Z.of_nat (length s) <= LONG_MAX ->
  refused fs path = false ->
  osmway_export fs s count path = Undef
  /\ osmwaynode_export fs s count path = Undef.
Proof.
  intros Hc Hl Hr. split.
  - apply (array_export_negative _ OSMWay_sizeof_pos); assumption.
  - apply (array_export_negative _ OSMWayNode_sizeof_pos); assumption.
Qed.

Lemma export_negative_count_is_undefined_witness :
  osmway_export (empty_disk 4096) (repeat Byte.x2a 320) (-1) "ways.bin" = Undef
  /\ osmwaynode_export (empty_disk 4096) (repeat Byte.x2a 320) (-1) "ways.bin" = Undef.
Proof.
  apply (export_negative_count_is_undefined (empty_disk 4096) (repeat Byte.x2a 320)
           (-1) "ways.bin").
  - unfold INT_MIN. lia.
  - vm_compute. discriminate.
  - reflexivity.
Defined.

(** X13: importing a file and exporting the result copies the whole records of
    the file: the copy is the file itself when its length is a multiple of
    [sizeof], and the file without its last, partial record otherwise. *)
Theorem import_then_export_copies h fs p q d :
  refused fs p = false -> contents fs p = Some d ->
  Z.of_nat (length d) <= LONG_MAX ->
  refused fs q = false -> (length d <= room fs)%nat ->
  (Z.of_nat (length d) / Z.of_nat OSMWay.sizeof <= INT_MAX ->
   Z.of_nat OSMWay.sizeof * (Z.of_nat (length d) / Z.of_nat OSMWay.sizeof)
   <= avail h ->
   exists fs',
     (r <- osmway_import h fs p ;; osmway_export fs (fst r) (snd r) q)
     = Ret (fs', 1)
     /\ contents fs' q
        = Some (firstn (slot OSMWay.sizeof
                          (Z.of_nat (length d) / Z.of_nat OSMWay.sizeof)) d)
     /\ (Z.of_nat (length d) mod Z.of_nat OSMWay.sizeof = 0 ->
         contents fs' q = Some d))
  /\ (Z.of_nat (length d) / Z.of_nat OSMWayNode.sizeof <= INT_MAX ->
      Z.of_nat OSMWayNode.sizeof * (Z.of_nat (length d) / Z.of_nat OSMWayNode.sizeof)
      <= avail h ->
      exists fs',
        (r <- osmwaynode_import h fs p ;; osmwaynode_export fs (fst r) (snd r) q)
        = Ret (fs', 1)
        /\ contents fs' q
           = Some (firstn (slot OSMWayNode.sizeof
                             (Z.of_nat (length d) / Z.of_nat OSMWayNode.sizeof)) d)
        /\ (Z.of_nat (length d) mod Z.of_nat OSMWayNode.sizeof = 0 ->
            contents fs' q = Some d)).
Proof.
  intros Hr Hc Hl Hrq Hroom. split; intros Hi Ha.
  - apply (array_import_export _ OSMWay_sizeof_pos); assumption.
  - apply (array_import_export _ OSMWayNode_sizeof_pos); assumption.
Qed.

Lemma import_then_export_copies_witness :
  exists fs',
    (r <- osmwaynode_import (heap_of 4096)
            (with_file (empty_disk 4096) "a.bin" (repeat Byte.x2a 112) 4096) "a.bin" ;;
     osmwaynode_export
       (with_file (empty_disk 4096) "a.bin" (repeat Byte.x2a 112) 4096)
       (fst r) (snd r) "b.bin")
    = Ret (fs', 1)
    /\ contents fs' "b.bin" = Some (repeat Byte.x2a 112).
Proof.
  destruct (proj2 (import_then_export_copies (heap_of 4096)
                     (with_file (empty_disk 4096) "a.bin" (repeat Byte.x2a 112) 4096)
                     "a.bin" "b.bin" (repeat Byte.x2a 112)
                     eq_refl eq_refl ltac:(vm_compute; discriminate) eq_refl
                     ltac:(apply Nat.leb_le; reflexivity))
              ltac:(vm_compute; discriminate) ltac:(vm_compute; discriminate))
    as (fs' & He & _ & Hf).
  exists fs'. split; [exact He | apply Hf; reflexivity].
Defined.

(** ** Laws of the node accessors *)

Lemma peek_peek s off n off' n' :
  (off' + n' <= n)%nat -> (off + n <= length s)%nat ->
  peek (peek s off n) off' n' = peek s (off + off') n'.
Proof.
  intros H H'. apply nth_error_ext. intros k.
  rewrite !nth_error_peek. by_bytes.
Qed.

(** A member read in a copy of a record is the member read in place. *)
Lemma load_member_peek s off n l :
  (f_off l + f_unit l <= n)%nat -> (off + n <= length s)%nat ->
  load_member (peek s off n) 0 l = load_member s off l.
Proof.
  intros H H'. unfold load_member.
  rewrite !load_in by (rewrite ?length_peek; lia). cbn [bind Nat.add].
  rewrite peek_peek by assumption. reflexivity.
Qed.

(** A member read in a record just stored is the member of the value. *)
Lemma load_member_poke s off bytes l :
  (f_off l + f_unit l <= length bytes)%nat -> (off + length bytes <= length s)%nat ->
  load_member (poke s off bytes) off l = load_member bytes 0 l.
Proof.
  intros H H'. unfold load_member.
  rewrite !load_in by (rewrite ?length_poke; lia). cbn [bind Nat.add].
  rewrite peek_poke_inside by assumption. reflexivity.
Qed.

Lemma node_record_place s count index :
  array_of OSMWayNode.sizeof count s -> 0 <= index < count ->
  (slot OSMWayNode.sizeof index + OSMWayNode.node_off + OSMNode.sizeof
   <= length s)%nat.
Proof.
  intros Hs Hi. pose proof (array_slot_in _ _ _ _ Hs Hi) as Hin.
  unfold OSMWayNode.sizeof, OSMWayNode.node_off, OSMNode.sizeof in *. lia.
Qed.

(** X14: writing a node twice at an index is writing the second node once. *)
Theorem set_node_twice s count index n1 n2 :
  array_of OSMWayNode.sizeof count s -> 0 <= index < count ->
  is_node n1 -> is_node n2 ->
  (s1 <- osmwaynode_set_node s index n1 ;; osmwaynode_set_node s1 index n2)
  = osmwaynode_set_node s index n2.
Proof.
  intros Hs Hi Hn1 Hn2. pose proof (array_slot_in _ _ _ _ Hs Hi) as Hin.
  pose proof (node_record_place _ _ _ Hs Hi) as Hp.
  rewrite (osmwaynode_set_node_in _ _ _ Hin Hn1). cbn [bind].
  rewrite osmwaynode_set_node_in
    by (rewrite ?length_poke by (rewrite Hn1; exact Hp); assumption).
  rewrite (osmwaynode_set_node_in _ _ _ Hin Hn2). f_equal.
  apply poke_poke_same; [rewrite Hn1; exact Hp | congruence].
Qed.

Lemma set_node_twice_witness :
  (s1 <- osmwaynode_set_node (zeros 112) 1 (repeat Byte.xff 48) ;;
   osmwaynode_set_node s1 1 (repeat Byte.x2a 48))
  = osmwaynode_set_node (zeros 112) 1 (repeat Byte.x2a 48).
Proof.
  apply (set_node_twice (zeros 112) 2 1 (repeat Byte.xff 48) (repeat Byte.x2a 48)).
  - split; [lia | reflexivity].
  - lia.
  - reflexivity.
  - reflexivity.
Defined.

(** X15: writing back the node just read leaves the array as it was. *)
Theorem get_node_then_set_node s count index dst :
  array_of OSMWayNode.sizeof count s -> 0 <= index < count -> is_node dst ->
  (n <- osmwaynode_get_node s index dst ;; osmwaynode_set_node s index n) = Ret s.
Proof.
  intros Hs Hi Hd. pose proof (array_slot_in _ _ _ _ Hs Hi) as Hin.
  pose proof (node_record_place _ _ _ Hs Hi) as Hp.
  rewrite (osmwaynode_get_node_in _ _ _ Hin Hd). cbn [bind].
  rewrite osmwaynode_set_node_in
    by (try exact Hin; unfold is_node; apply length_peek; exact Hp).
  f_equal. apply poke_peek. exact Hp.
Qed.

Lemma get_node_then_set_node_witness :
  (n <- osmwaynode_get_node (repeat Byte.x2a 112) 1 (zeros 48) ;;
   osmwaynode_set_node (repeat Byte.x2a 112) 1 n)
  = Ret (repeat Byte.x2a 112).
Proof.
  apply (get_node_then_set_node (repeat Byte.x2a 112) 2 1 (zeros 48)).
  - split; [lia | reflexivity].
  - lia.
  - reflexivity.
Defined.

(** X16: writes of nodes at two different indices can be made in either order. *)
Theorem set_node_commutes s count i j n1 n2 :
  array_of OSMWayNode.sizeof count s ->
  0 <= i < count -> 0 <= j < count -> i <> j ->
  is_node n1 -> is_node n2 ->
  (s1 <- osmwaynode_set_node s i n1 ;; osmwaynode_set_node s1 j n2)
  = (s1 <- osmwaynode_set_node s j n2 ;; osmwaynode_set_node s1 i n1).
Proof.
  intros Hs Hi Hj Hij Hn1 Hn2.
  pose proof (array_slot_in _ _ _ _ Hs Hi) as Hini.
  pose proof (array_slot_in _ _ _ _ Hs Hj) as Hinj.
  pose proof (node_record_place _ _ _ Hs Hi) as Hpi.
  pose proof (node_record_place _ _ _ Hs Hj) as Hpj.
  rewrite (osmwaynode_set_node_in _ _ _ Hini Hn1).
  rewrite (osmwaynode_set_node_in _ _ _ Hinj Hn2). cbn [bind].
  rewrite !osmwaynode_set_node_in
    by (rewrite ?length_poke by (rewrite ?Hn1, ?Hn2; assumption); assumption).
  f_equal. apply poke_poke_comm; rewrite ?Hn1, ?Hn2; try assumption.
  destruct (Z.lt_total i j) as [H | [H | H]]; [left | contradiction | right].
  - pose proof (slot_in OSMWayNode.sizeof i j (conj (proj1 Hi) H)) as Hle.
    unfold slot, OSMWayNode.sizeof, OSMWayNode.node_off, OSMNode.sizeof in *. lia.
  - pose proof (slot_in OSMWayNode.sizeof j i (conj (proj1 Hj) H)) as Hle.
    unfold slot, OSMWayNode.sizeof, OSMWayNode.node_off, OSMNode.sizeof in *. lia.
Qed.

Lemma set_node_commutes_witness :
  (s1 <- osmwaynode_set_node (zeros 112) 0 (repeat Byte.xff 48) ;;
   osmwaynode_set_node s1 1 (repeat Byte.x2a 48))
  = (s1 <- osmwaynode_set_node (zeros 112) 1 (repeat Byte.x2a 48) ;;
     osmwaynode_set_node s1 0 (repeat Byte.xff 48)).
Proof.
  apply (set_node_commutes (zeros 112) 2 0 1 (repeat Byte.xff 48)
           (repeat Byte.x2a 48)).
  - split; [lia | reflexivity].
  - lia.
  - lia.
  - discriminate.
  - reflexivity.
  - reflexivity.
Defined.

(** X17: the byte copies agree with the typed members: after
    [osmwaynode_set_node] every member of the embedded node reads as the
    member of the value written, and the value [osmwaynode_get_node] returns
    has the members the embedded node has. *)
Theorem node_accessors_agree_with_members s count index n dst :
  array_of OSMWayNode.sizeof count s -> 0 <= index < count ->
  is_node n -> is_node dst ->
  (forall s', osmwaynode_set_node s index n = Ret s' ->
              forall m, OSMWayNode.get s' index (OSMWayNode.node m)
                        = OSMNode.get n 0 m)
  /\ (forall v, osmwaynode_get_node s index dst = Ret v ->
                forall m, OSMNode.get v 0 m
                          = OSMWayNode.get s index (OSMWayNode.node m)).
Proof.
  intros Hs Hi Hn Hd. pose proof (array_slot_in _ _ _ _ Hs Hi) as Hin.
  pose proof (node_record_place _ _ _ Hs Hi) as Hp.
  split.
  - intros s' H m. rewrite (osmwaynode_set_node_in _ _ _ Hin Hn) in H.
    injection H as <-.
    unfold OSMWayNode.node_off in *. rewrite Nat.add_0_r in *.
    change (load_member (poke s (slot OSMWayNode.sizeof index) n)
              (slot OSMWayNode.sizeof index) (OSMNode.layout m)
            = load_member n 0 (OSMNode.layout m)).
    apply load_member_poke; rewrite Hn; [apply OSMNode_layout_fits | exact Hp].
  - intros v H m. rewrite (osmwaynode_get_node_in _ _ _ Hin Hd) in H.
    injection H as <-.
    unfold OSMWayNode.node_off in *. rewrite Nat.add_0_r in *.
    change (load_member (peek s (slot OSMWayNode.sizeof index) OSMNode.sizeof)
              0 (OSMNode.layout m)
            = load_member s (slot OSMWayNode.sizeof index) (OSMNode.layout m)).
    apply load_member_peek; [apply OSMNode_layout_fits | exact Hp].
Qed.

Lemma node_accessors_agree_with_members_witness :
  OSMWayNode.get (zeros 56 ++ repeat Byte.x2a 48 ++ zeros 8) 1
    (OSMWayNode.node OSMNode.lat7_)
  = OSMNode.get (repeat Byte.x2a 48) 0 OSMNode.lat7_.
Proof.
  destruct (node_accessors_agree_with_members (zeros 112) 2 1
              (repeat Byte.x2a 48) (zeros 48)) as [Hset _].
  - split; [lia | reflexivity].
  - lia.
  - reflexivity.
  - reflexivity.
  - apply Hset. reflexivity.
Defined.

(** X4: records at two different indices can be populated in either order. *)
Theorem way_population_commutes s count i j a1 b1 c1 a2 b2 c2 :
  array_of OSMWay.sizeof count s ->
  0 <= i < count -> 0 <= j < count -> i <> j ->
  (s1 <- osmway_set_to_valhalla s i a1 b1 c1 ;;
   osmway_set_to_valhalla s1 j a2 b2 c2)
  = (s1 <- osmway_set_to_valhalla s j a2 b2 c2 ;;
     osmway_set_to_valhalla s1 i a1 b1 c1).
Proof.
  intros Hs Hi Hj Hij.
  pose proof (array_slot_in _ _ _ _ Hs Hi) as Hini.
  pose proof (array_slot_in _ _ _ _ Hs Hj) as Hinj.
  destruct (osmway_set_to_valhalla_local a1 b1 c1) as (R1 & HR1 & Hrun1).
  destruct (osmway_set_to_valhalla_local a2 b2 c2) as (R2 & HR2 & Hrun2).
  rewrite (Hrun1 s i Hini), (Hrun2 s j Hinj). cbn [bind].
  rewrite Hrun1, Hrun2
    by (rewrite length_poke; rewrite ?HR1, ?HR2; assumption).
  f_equal. apply poke_poke_comm; rewrite ?HR1, ?HR2; try assumption.
  destruct (Z.lt_total i j) as [H | [H | H]]; [left | contradiction | right].
  - exact (slot_in OSMWay.sizeof i j (conj (proj1 Hi) H)).
  - exact (slot_in OSMWay.sizeof j i (conj (proj1 Hj) H)).
Qed.

Lemma way_population_commutes_witness :
  (s1 <- osmway_set_to_valhalla (repeat Byte.xff 640) 0 42 7 3 ;;
   osmway_set_to_valhalla s1 1 43 8 4)
  = (s1 <- osmway_set_to_valhalla (repeat Byte.xff 640) 1 43 8 4 ;;
     osmway_set_to_valhalla s1 0 42 7 3).
Proof.
  apply (way_population_commutes (repeat Byte.xff 640) 2 0 1 42 7 3 43 8 4).
  - split; [lia | reflexivity].
  - lia.
  - lia.
  - discriminate.
Defined.
